(** * The test-catalog flattener: [.github/scripts/format-test-catalog.py]

    A shallow embedding of the script and the properties of its
    specification.  The script resolves glob patterns, parses every
    resolved file as YAML and writes one line [<class>#<method>] per
    method entry to a single text file. *)

From Stdlib Require Import Ascii.
From stdpp Require Import base option list strings gmap pretty.

(** ** Python values *)

(** What [yaml.safe_load] builds from a document of YAML's core schema.
    A [dict] keeps its items in insertion order, which is the order
    [.items()] yields them in.  A character of a [string] stands for one
    character of a [str].  A float is kept by its bit pattern: the
    script never computes on one. *)
#[warnings="-register-all"] Inductive pyval :=
| PNone
| PBool (b : bool)
| PInt (z : Z)
| PFloat (bits : Z)
| PStr (s : string)
| PList (l : list pyval)
| PDict (d : list (pyval * pyval)).

(** The exceptions that can leave the script. *)
Inductive exn :=
| OSError
| YAMLError
| AttributeError
| TypeError
| UnicodeEncodeError
| SystemExit (code : Z).

(** An ASCII character: its high bit is clear. *)
Definition is_ascii (c : ascii) : bool :=
  match c with
  | Ascii _ _ _ _ _ _ _ b7 => negb b7
  end.

(** The characters of a string, each as a string of length one: what
    iterating over a [str] yields. *)
Fixpoint chars (s : string) : list string :=
  match s with
  | EmptyString => []
  | String c s' => String c EmptyString :: chars s'
  end.

(** [tests.items()]: only a [dict] has the attribute. *)
Definition py_items (v : pyval) : exn + list (pyval * pyval) :=
  match v with
  | PDict d => inr d
  | _ => inl AttributeError
  end.

(** [iter(v)], as the [for] statement calls it: a list yields its
    elements, a string its characters, a dict its keys; the other values
    are not iterable. *)
Definition py_iter (v : pyval) : exn + list pyval :=
  match v with
  | PList l => inr l
  | PStr s => inr (PStr <$> chars s)
  | PDict d => inr (fst <$> d)
  | PNone | PBool _ | PInt _ | PFloat _ => inl TypeError
  end.

(** ** The platform *)

(** What the script takes from its libraries and from the operating
    system: [glob(pathname=p, recursive=True)], [yaml.safe_load] on the
    text of a file ([None] when it raises), whether [open(p, "w")]
    succeeds, [str()] of a float, a list or a dict, as an f-string
    formats them, and whether the encoding that [open(p, "w")] picks for
    the output file has a code for a character that is not ASCII. *)
Record platform := Platform {
  glob : string → list string;
  safe_load : string → option pyval;
  can_write : string → bool;
  py_repr : pyval → string;
  can_encode : ascii → bool
}.

(** The value of an attribute of the [Namespace] that [parse_args]
    returns. *)
Inductive arg :=
| ArgNone
| ArgStr (s : string)
| ArgList (l : list string).

(** The diagnostic lines and the printed message, by their payload;
    [ParserMessage] is what [argparse] prints before it exits: the help
    text, or the usage and the error. *)
Inductive log_event :=
| LogReceived (glob_paths : list string)
| LogFound (n : nat)
| LogWrote (method_count class_count : nat) (out_file : string)
| LogPassed (path : arg)
| Printed (msg : string)
| ParserMessage.

(** ** The state of a run *)

(** [disk] holds the text of the regular files the process can read.
    [written] is what [fp.write] has been given so far, in order: the
    handle buffers it, and it reaches the file when the [with] block
    closes the handle (a full buffer goes out earlier, which only a run
    that reads its own output file could see).  [class_count] and
    [method_count] are the two local counters.  [console] collects what
    the script prints and logs. *)
Record state := State {
  disk : gmap string string;
  written : list string;
  class_count : nat;
  method_count : nat;
  console : list log_event
}.

Definition set_disk (d : gmap string string) (st : state) : state :=
  State d (written st) (class_count st) (method_count st) (console st).
Definition set_written (w : list string) (st : state) : state :=
  State (disk st) w (class_count st) (method_count st) (console st).
Definition set_class_count (n : nat) (st : state) : state :=
  State (disk st) (written st) n (method_count st) (console st).
Definition set_method_count (n : nat) (st : state) : state :=
  State (disk st) (written st) (class_count st) n (console st).
Definition set_console (l : list log_event) (st : state) : state :=
  State (disk st) (written st) (class_count st) (method_count st) l.

(** ** A state and exception monad *)

Inductive result (A : Type) :=
| Ok (a : A)
| Raise (e : exn).
Arguments Ok {A} a.
Arguments Raise {A} e.

Definition M (A : Type) : Type := state → result A * state.

Definition ret {A} (a : A) : M A := fun st => (Ok a, st).
Definition raise {A} (e : exn) : M A := fun st => (Raise e, st).
Definition bind {A B} (m : M A) (k : A → M B) : M B := fun st =>
  match m st with
  | (Ok a, st') => k a st'
  | (Raise e, st') => (Raise e, st')
  end.
Definition get : M state := fun st => (Ok st, st).
Definition modify (f : state → state) : M unit := fun st => (Ok tt, f st).
Definition lift {A} (r : exn + A) : M A :=
  match r with
  | inr a => ret a
  | inl e => raise e
  end.

Declare Scope py_scope.
Delimit Scope py_scope with py.
Notation "x <- m ;; k" := (bind m (fun x => k))
  (at level 100, m at next level, right associativity) : py_scope.
Notation "m ;; k" := (bind m (fun _ => k))
  (at level 100, right associativity) : py_scope.
Local Open Scope py_scope.

(** [for x in l: body x] *)
Fixpoint for_each {A} (l : list A) (body : A → M unit) : M unit :=
  match l with
  | [] => ret tt
  | x :: l' => body x;; for_each l' body
  end.

(** The status the interpreter exits with. *)
Definition exit_status {A} (r : result A) : Z :=
  match r with
  | Ok _ => 0
  | Raise (SystemExit code) => code
  | Raise _ => 1
  end.

(** ** The script *)

(** What the file holds once the chunks given to [fp.write] are flushed. *)
Definition flush (chunks : list string) : string :=
  foldr String.append "" chunks.

(** The newline character that ends every written line. *)
Definition LF : string := String "010"%char "".

Definition default_pattern : string := "test-catalog/**/*.yaml".
Definition default_output : string := "combined-test-catalog.txt".

Section Script.
Variable P : platform.

(** [str(v)], as [f"{v}"] calls it. *)
Definition py_str (v : pyval) : string :=
  match v with
  | PStr s => s
  | PNone => "None"
  | PBool true => "True"
  | PBool false => "False"
  | PInt z => pretty z
  | PFloat _ | PList _ | PDict _ => py_repr P v
  end.

(** [logger.debug(...)] and [print(...)]. *)
Definition emit (e : log_event) : M unit :=
  modify (fun st => set_console (console st ++ [e]) st).

(** [open(f, "r")] with the text of the file: a path that is not a
    readable regular file raises. *)
Definition read_file (f : string) : M string :=
  st <- get;;
  match disk st !! f with
  | Some text => ret text
  | None => raise OSError
  end.

(** [yaml.safe_load(yamp_fp)] *)
Definition load (text : string) : M pyval :=
  match safe_load P text with
  | Some v => ret v
  | None => raise YAMLError
  end.

(** [f"{clazz}#{method}\n"] *)
Definition line (clazz method : pyval) : string :=
  py_str clazz +:+ "#" +:+ py_str method +:+ LF.

(** Whether the encoding of the output file can encode a text: it can
    when it has a code for every character, and it has one for every
    ASCII character. *)
Fixpoint encodable (s : string) : bool :=
  match s with
  | EmptyString => true
  | String c s' => (is_ascii c || can_encode P c) && encodable s'
  end.

(** [fp.write(s)]: the text is encoded as it is written, and a character
    without a code raises before anything of [s] is taken. *)
Definition fp_write (s : string) : M unit :=
  if encodable s then modify (fun st => set_written (written st ++ [s]) st)
  else raise UnicodeEncodeError.

(** Lines 47 to 49: the loop over the methods of a class. *)
Definition write_methods (clazz : pyval) (methods : list pyval) : M unit :=
  for_each methods (fun method =>
    modify (fun st => set_method_count (method_count st + 1) st);;
    fp_write (line clazz method)).

(** Lines 46 to 49: the body of the loop over [tests.items()]. *)
Definition write_class (item : pyval * pyval) : M unit :=
  modify (fun st => set_class_count (class_count st + 1) st);;
  methods <- lift (py_iter item.2);;
  write_methods item.1 methods.

(** Lines 43 to 49: the body of the loop over [yamls]. *)
Definition write_file (yaml_file : string) : M unit :=
  text <- read_file yaml_file;;
  tests <- load text;;
  items <- lift (py_items tests);;
  for_each items write_class.

(** Lines 34 to 36: every pattern is expanded and its matches are
    appended to [yamls]. *)
Definition resolve (glob_paths : list string) : list string :=
  fold_left (fun yamls path => yamls ++ glob P path) glob_paths [].

(** [with open(out_file, "w") as fp: body]: opening truncates the file;
    leaving the block, normally or by an exception, closes the handle,
    which flushes what was written. *)
Definition with_open_w (out_file : string) (body : M unit) : M unit :=
  fun st =>
    if can_write P out_file then
      let st1 := set_written [] (set_disk (<[out_file := ""]> (disk st)) st) in
      let '(r, st2) := body st1 in
      (r, set_disk (<[out_file := flush (written st2)]> (disk st2)) st2)
    else (Raise OSError, st).

Definition yaml_to_all_tests (glob_paths : list string) (out_file : string)
  : M unit :=
  emit (LogReceived glob_paths);;
  let yamls := resolve glob_paths in
  emit (LogFound (length yamls));;
  modify (set_class_count 0);;
  modify (set_method_count 0);;
  with_open_w out_file (for_each yamls write_file);;
  st <- get;;
  emit (LogWrote (method_count st) (class_count st) out_file).

(** *** The command line *)

(** The options given on a command line that [argparse] accepts: the
    values of the [--path] occurrences, in order, and of [--output-file]. *)
Record cmdline := Cmdline {
  opt_path : list string;
  opt_output_file : option string
}.

(** What [argparse] makes of the arguments of the process: it accepts
    them, or it prints and exits by itself, with status 0 for [--help]
    and status 2 for arguments it rejects. *)
Inductive parsed :=
| Accepted (cl : cmdline)
| Exits (code : Z).

(** The [Namespace] of an accepted command line: [--path] has
    [action='append'] and [default=None]; [--output-file] has a
    default. *)
Definition namespace (cl : cmdline) : gmap string arg :=
  {[ "path" := match opt_path cl with
               | [] => ArgNone
               | l => ArgList l
               end;
     "output_file" := ArgStr (default default_output (opt_output_file cl)) ]}.

(** [parser.parse_args()], line 71. *)
Definition parse_args (argv : parsed) : M (gmap string arg) :=
  match argv with
  | Accepted cl => ret (namespace cl)
  | Exits code => emit ParserMessage;; raise (SystemExit code)
  end.

Definition getattr (args : gmap string arg) (name : string) : M arg :=
  match args !! name with
  | Some v => ret v
  | None => raise AttributeError
  end.

Definition truthy (a : arg) : bool :=
  match a with
  | ArgNone | ArgStr "" | ArgList [] => false
  | _ => true
  end.

(** Lines 67 to 76. *)
Definition main (environ : gmap string string) (argv : parsed) : M unit :=
  match environ !! "GITHUB_WORKSPACE" with
  | None | Some "" =>
      emit (Printed "This script is intended to by run by GitHub Actions.");;
      raise (SystemExit 1)
  | Some _ =>
      args <- parse_args argv;;
      path <- getattr args "path";;
      let args :=
        match path with
        | ArgNone => <["path" := ArgList [default_pattern]]> args
        | _ => args
        end in
      paths <- getattr args "paths";;
      let glob_paths :=
        if truthy paths then paths else ArgList [default_pattern] in
      path <- getattr args "path";;
      emit (LogPassed path);;
      path <- getattr args "path";;
      output_file <- getattr args "output_file";;
      match path, output_file with
      | ArgList l, ArgStr out => yaml_to_all_tests l out
      | _, _ => raise TypeError
      end
  end.

(** *** What a run finds on disk

    The loop body reads, parses and iterates; these views name what it
    meets, file by file. *)

(** What the run finds in a file of disk [d]: the items of its mapping,
    or the exception that reading, parsing or [.items()] raises. *)
Definition file_items (d : gmap string string) (f : string)
  : exn + list (pyval * pyval) :=
  match d !! f with
  | None => inl OSError
  | Some text =>
      match safe_load P text with
      | None => inl YAMLError
      | Some v => py_items v
      end
  end.

Definition iterable (v : pyval) : bool :=
  match py_iter v with
  | inr _ => true
  | inl _ => false
  end.

Definition item_methods (item : pyval * pyval) : list pyval :=
  match py_iter item.2 with
  | inr methods => methods
  | inl _ => []
  end.

Definition item_lines (item : pyval * pyval) : list string :=
  line item.1 <$> item_methods item.

(** An item the loop body gets through: its value can be iterated and
    its lines can be encoded. *)
Definition item_ok (item : pyval * pyval) : bool :=
  iterable item.2 && forallb encodable (item_lines item).

Definition items_ok (items : list (pyval * pyval)) : bool :=
  forallb item_ok items.

(** A file the loop body gets through without an exception. *)
Definition file_ok (d : gmap string string) (f : string) : bool :=
  match file_items d f with
  | inr items => items_ok items
  | inl _ => false
  end.

Definition file_classes (d : gmap string string) (f : string) : nat :=
  match file_items d f with
  | inr items => length items
  | inl _ => 0
  end.

Definition file_lines (d : gmap string string) (f : string) : list string :=
  match file_items d f with
  | inr items => items ≫= item_lines
  | inl _ => []
  end.

Definition files_ok (d : gmap string string) (fs : list string) : bool :=
  forallb (file_ok d) fs.

Definition files_classes (d : gmap string string) (fs : list string) : nat :=
  sum_list (file_classes d <$> fs).

Definition files_lines (d : gmap string string) (fs : list string)
  : list string :=
  fs ≫= file_lines d.

(** *** The states around the loop *)

(** The state in which the loop over [yamls] starts: the two debug
    lines are out, the counters are zero and the output file is open
    and empty. *)
Definition opened (glob_paths : list string) (out_file : string)
  (st : state) : state :=
  State (<[out_file := ""]> (disk st)) [] 0 0
        (console st ++ [LogReceived glob_paths;
                        LogFound (length (resolve glob_paths))]).

(** Leaving the [with] block. *)
Definition closed (out_file : string) (st : state) : state :=
  set_disk (<[out_file := flush (written st)]> (disk st)) st.

(** Line 51. *)
Definition reported (out_file : string) (st : state) : state :=
  set_console
    (console st ++ [LogWrote (method_count st) (class_count st) out_file]) st.

End Script.

(** *** Points of a run

    A point at the head of one of the three loops.  At [AtFile] the
    files [pre] are done.  At [AtClass], inside file [f], the items
    [ipre] are done as well.  At [AtMethod], inside the class of [item],
    which is counted already, the methods [mpre] are written too. *)
Inductive point :=
| AtFile (pre post : list string)
| AtClass (pre : list string) (f : string) (post : list string)
    (ipre ipost : list (pyval * pyval))
| AtMethod (pre : list string) (f : string) (post : list string)
    (ipre : list (pyval * pyval)) (item : pyval * pyval)
    (ipost : list (pyval * pyval)) (mpre mpost : list pyval).

Section Progress.
Variable P : platform.

(** The point lies on the run over the files [yamls] of disk [d]. *)
Definition on_run (d : gmap string string) (yamls : list string)
  (pt : point) : Prop :=
  match pt with
  | AtFile pre post => yamls = pre ++ post
  | AtClass pre f post ipre ipost =>
      yamls = pre ++ f :: post ∧ file_items P d f = inr (ipre ++ ipost)
  | AtMethod pre f post ipre item ipost mpre mpost =>
      yamls = pre ++ f :: post
      ∧ file_items P d f = inr (ipre ++ item :: ipost)
      ∧ py_iter item.2 = inr (mpre ++ mpost)
  end.

(** What the loops do before the point. *)
Definition before (pt : point) : M unit :=
  match pt with
  | AtFile pre _ => for_each pre (write_file P)
  | AtClass pre _ _ ipre _ =>
      for_each pre (write_file P);;
      for_each ipre (write_class P)
  | AtMethod pre _ _ ipre item _ mpre _ =>
      for_each pre (write_file P);;
      for_each ipre (write_class P);;
      modify (fun st => set_class_count (class_count st + 1) st);;
      write_methods P item.1 mpre
  end.

(** What the loops do from the point on. *)
Definition after (pt : point) : M unit :=
  match pt with
  | AtFile _ post => for_each post (write_file P)
  | AtClass _ _ post _ ipost =>
      for_each ipost (write_class P);;
      for_each post (write_file P)
  | AtMethod _ _ post _ item ipost _ mpost =>
      write_methods P item.1 mpost;;
      for_each ipost (write_class P);;
      for_each post (write_file P)
  end.

(** The (file, class key) occurrences the loops have come to before the
    point: those of the files done, those done in the current file and
    the one in progress. *)
Definition classes_seen (d : gmap string string) (pt : point) : nat :=
  match pt with
  | AtFile pre _ => files_classes P d pre
  | AtClass pre _ _ ipre _ => files_classes P d pre + length ipre
  | AtMethod pre _ _ ipre _ _ _ _ => files_classes P d pre + length ipre + 1
  end.

End Progress.

(** *** Documents the loops cannot get through *)

Definition is_mapping (v : pyval) : bool :=
  match v with
  | PDict _ => true
  | _ => false
  end.

(** A mapping with a value that cannot be iterated: a null, a boolean
    or a number. *)
Definition has_scalar_value (v : pyval) : bool :=
  match v with
  | PDict d => existsb (fun item => negb (iterable item.2)) d
  | _ => false
  end.

(** The state after [classes] more class keys and the lines [chunks] of
    [methods] more methods. *)
Definition advance (classes methods : nat) (chunks : list string)
  (st : state) : state :=
  State (disk st) (written st ++ chunks) (class_count st + classes)
        (method_count st + methods) (console st).

(** ** Catalogs, as the specification describes them *)

(** A catalog maps class names to sequences of method names. *)
Definition catalog : Type := list (string * list string).

Definition as_str (v : pyval) : option string :=
  match v with
  | PStr s => Some s
  | _ => None
  end.

Definition as_class (item : pyval * pyval) : option (string * list string) :=
  match item with
  | (PStr clazz, PList methods) =>
      match mapM as_str methods with
      | Some ms => Some (clazz, ms)
      | None => None
      end
  | _ => None
  end.

(** The catalog a parsed document is, when it is a mapping from strings
    to sequences of strings. *)
Definition as_catalog (v : pyval) : option catalog :=
  match v with
  | PDict d => mapM as_class d
  | _ => None
  end.

(** The output record of a (class, method) pair. *)
Definition record (clazz method : string) : string :=
  clazz +:+ "#" +:+ method +:+ LF.

Definition class_records (entry : string * list string) : list string :=
  record entry.1 <$> entry.2.

(** The records of a catalog: key order, then element order. *)
Definition catalog_records (cat : catalog) : list string :=
  cat ≫= class_records.

(** The records of the catalogs of all files, in file order. *)
Definition all_records (cats : list catalog) : list string :=
  cats ≫= catalog_records.

Definition expected_output (cats : list catalog) : string :=
  flush (all_records cats).

(** The number of method-sequence elements of a catalog. *)
Definition catalog_methods (cat : catalog) : nat :=
  sum_list ((fun entry => length entry.2) <$> cat).

Definition total_methods (cats : list catalog) : nat :=
  sum_list (catalog_methods <$> cats).

Definition total_classes (cats : list catalog) : nat :=
  sum_list (length <$> cats).

(** Counting the lines of a text by its newline characters. *)
Fixpoint newlines (s : string) : nat :=
  match s with
  | EmptyString => 0
  | String c s' => (if decide (c = "010"%char) then 1 else 0) + newlines s'
  end.

Definition single_line (s : string) : Prop := newlines s = 0.

(** No class or method name of the catalogs contains a line break. *)
Definition names_single_line (cats : list catalog) : Prop :=
  Forall (Forall (fun entry : string * list string =>
                    single_line entry.1 ∧ Forall single_line entry.2)) cats.

Section Catalogs.
Variable P : platform.

(** The catalog in file [f] of disk [d]. *)
Definition load_catalog (d : gmap string string) (f : string)
  : option catalog :=
  match d !! f with
  | None => None
  | Some text =>
      match safe_load P text with
      | None => None
      | Some v => as_catalog v
      end
  end.

(** The files as the loop reads them: the output file has just been
    truncated. *)
Definition run_disk (out_file : string) (st : state) : gmap string string :=
  <[out_file := ""]> (disk st).

(** The encoding of the output file can encode every class and method
    name of the catalogs. *)
Definition names_encodable (cats : list catalog) : Prop :=
  Forall (Forall (fun entry : string * list string =>
                    encodable P entry.1 = true
                    ∧ Forall (fun m => encodable P m = true) entry.2)) cats.

(** A key or a method that is written without a line break. *)
Definition plain (v : pyval) : Prop := single_line (py_str P v).

Definition plain_item (item : pyval * pyval) : Prop :=
  plain item.1 ∧ Forall plain (item_methods item).

(** A file of disk [d] with no line break in what its keys and methods
    are written as. *)
Definition plain_file (d : gmap string string) (f : string) : Prop :=
  ∀ items, file_items P d f = inr items → Forall plain_item items.

End Catalogs.

(** ** A platform to compute with

    Patterns and documents are looked up in two tables; a pattern or a
    text outside them matches nothing, respectively is malformed. *)
Module Demo.

(** The double quote character. *)
Definition DQ : string := String "034"%char "".

(** The YAML text [Foo: ["a\nb"]]: one method, whose name has a line
    break. *)
Definition two_line_name : string := "Foo: [" +:+ DQ +:+ "a\nb" +:+ DQ +:+ "]".

Definition documents : list (string * pyval) :=
  [ ("Foo: [a, b]", PDict [(PStr "Foo", PList [PStr "a"; PStr "b"])]);
    (two_line_name, PDict [(PStr "Foo", PList [PStr ("a" +:+ LF +:+ "b")])]);
    ("Foo: [a]", PDict [(PStr "Foo", PList [PStr "a"])]);
    ("Foo: ab", PDict [(PStr "Foo", PStr "ab")]);
    ("Foo: 5", PDict [(PStr "Foo", PInt 5)]);
    ("Foo: []" +:+ LF +:+ "Bar: []",
     PDict [(PStr "Foo", PList []); (PStr "Bar", PList [])]);
    ("- a", PList [PStr "a"]);
    ("# nothing", PNone);
    ("", PNone) ].

Definition patterns : list (string * list string) :=
  [ ("one/*.yaml", ["one/x.yaml"]);
    ("one/x.*", ["one/x.yaml"]);
    ("two/*.yaml", ["two/x.yaml"; "two/y.yaml"]);
    ("**/x.yaml", ["one/x.yaml"; "two/x.yaml"]);
    ("str/*.yaml", ["str/s.yaml"]);
    ("int/*.yaml", ["int/i.yaml"]);
    ("emp/*.yaml", ["emp/e.yaml"]);
    ("seq/*.yaml", ["seq/q.yaml"]);
    ("nul/*.yaml", ["nul/n.yaml"]);
    ("brk/*.yaml", ["brk/l.yaml"]);
    ("bad/*.yaml", ["bad/m.yaml"]) ].

Definition lookup_table {A} (t : list (string * A)) (k : string) : option A :=
  match list_find (fun e => e.1 = k) t with
  | Some (_, e) => Some e.2
  | None => None
  end.

Definition platform : platform :=
  Platform (fun p => default [] (lookup_table patterns p))
           (lookup_table documents)
           (fun p => bool_decide (p ≠ "/"))
           (fun _ => "?")
           (fun _ => true).

Definition files : gmap string string :=
  {[ "one/x.yaml" := "Foo: [a, b]";
     "two/x.yaml" := "Foo: [a]";
     "two/y.yaml" := "Foo: [a]";
     "str/s.yaml" := "Foo: ab";
     "int/i.yaml" := "Foo: 5";
     "emp/e.yaml" := "Foo: []" +:+ LF +:+ "Bar: []";
     "seq/q.yaml" := "- a";
     "nul/n.yaml" := "# nothing";
     "brk/l.yaml" := two_line_name;
     "bad/m.yaml" := "Foo: [";
     "old.txt" := "stale" ]}.

(** A state with leftovers in every field. *)
Definition start : state := State files ["x"] 7 9 [].

Definition two_patterns : list string := ["one/*.yaml"; "two/*.yaml"].

(** In the run over [one/*.yaml] and [two/*.yaml]: inside the second
    file, after the only method of its class. *)
Definition second_file_done : point :=
  AtMethod ["one/x.yaml"] "two/x.yaml" ["two/y.yaml"]
           [] (PStr "Foo", PList [PStr "a"]) [] [PStr "a"] [].

End Demo.

(** ** Outcomes of a run *)

Section Outcomes.
Variable P : platform.

(** A chunk that line 49 can write. *)
Definition is_line (chunk : string) : Prop :=
  ∃ clazz method, chunk = line P clazz method.

(** A file of disk [d] that can be read, parses to a mapping, and has
    only values that a [for] statement can iterate and lines that the
    output file can encode. *)
Definition usable (d : gmap string string) (f : string) : Prop :=
  ∃ text items,
    d !! f = Some text
    ∧ safe_load P text = Some (PDict items)
    ∧ Forall (fun item : pyval * pyval =>
                iterable item.2 = true
                ∧ Forall (fun chunk => encodable P chunk = true)
                         (item_lines P item)) items.

(** The same platform at a later time, when [glob] may answer
    differently. *)
Definition later (glob' : string → list string) : platform :=
  Platform glob' (safe_load P) (can_write P) (py_repr P) (can_encode P).

(** A computation that does not look at the console. *)
Definition console_blind {A} (m : M A) : Prop :=
  ∀ c st, m (set_console c st) = ((m st).1, set_console c (m st).2).

End Outcomes.

(** By how much the method counter is ahead of the chunks written when
    the loops end: [fp.write] raises after line 48 has counted. *)
Definition ahead {A} (r : result A) : nat :=
  match r with
  | Raise UnicodeEncodeError => 1
  | _ => 0
  end.

(** ** More cases to compute with *)
Module Cases.

(** A mapping whose second value is a number. *)
Definition good_then_bad : string := "Foo: [a]" +:+ LF +:+ "Bar: 5".

(** A character that stands for the lone surrogate U+D800, for which
    UTF-8 has no code. *)
Definition surrogate : string := String "237"%char "".

(** The YAML text [Foo: [a, "\ud800", b]]: three methods, the second
    named by that one character. *)
Definition surrogate_name : string :=
  "Foo: [a, " +:+ Demo.DQ +:+ "\ud800" +:+ Demo.DQ +:+ ", b]".

Definition documents : list (string * pyval) :=
  [ (good_then_bad,
     PDict [(PStr "Foo", PList [PStr "a"]); (PStr "Bar", PInt 5)]);
    (surrogate_name,
     PDict [(PStr "Foo", PList [PStr "a"; PStr surrogate; PStr "b"])]) ].

Definition patterns : list (string * list string) :=
  [ ("mix/*.yaml", ["mix/m.yaml"]);
    ("sur/*.yaml", ["sur/s.yaml"]);
    ("gone/*.yaml", ["gone/g.yaml"]) ].

Definition platform : platform :=
  Platform
    (fun p => default (glob Demo.platform p) (Demo.lookup_table patterns p))
    (fun text =>
       match Demo.lookup_table documents text with
       | Some v => Some v
       | None => safe_load Demo.platform text
       end)
    (can_write Demo.platform)
    (py_repr Demo.platform)
    (fun c => bool_decide (String c "" ≠ surrogate)).

(** [gone/g.yaml] is resolved and cannot be read. *)
Definition files : gmap string string :=
  <["sur/s.yaml" := surrogate_name]> (<["mix/m.yaml" := good_then_bad]> Demo.files).

Definition start : state := State files ["x"] 7 9 [].

End Cases.

(** * Properties *)

(** ** How a run moves the state *)

Lemma advance_0 st : advance 0 0 [] st = st.
Proof.
  destruct st; unfold advance; simpl.
  by rewrite app_nil_r, !Nat.add_0_r.
Qed.

Lemma advance_advance c1 m1 l1 c2 m2 l2 st :
  advance c2 m2 l2 (advance c1 m1 l1 st)
  = advance (c1 + c2) (m1 + m2) (l1 ++ l2) st.
Proof.
  unfold advance; simpl. by rewrite !Nat.add_assoc, app_assoc.
Qed.

Ltac monad_unfold :=
  repeat (unfold bind, get, modify, ret, raise, lift; simpl).

Lemma for_each_app {A} (l1 l2 : list A) body st :
  for_each (l1 ++ l2) body st = (for_each l1 body;; for_each l2 body) st.
Proof.
  revert st; induction l1 as [|x l1 IH]; intros st; simpl; [done|].
  unfold bind in *. destruct (body x st) as [[[]|e] st1]; [|done].
  by rewrite IH.
Qed.

Lemma forallb_false_split {A} (p : A → bool) l :
  forallb p l = false →
  ∃ l1 x l2, l = l1 ++ x :: l2 ∧ forallb p l1 = true ∧ p x = false.
Proof.
  induction l as [|y l IH]; simpl; [done|].
  destruct (p y) eqn:Hy; simpl.
  - intros (l1 & x & l2 & -> & Hl1 & Hx)%IH.
    exists (y :: l1), x, l2. simpl. by rewrite Hy.
  - intros _. by exists [], y, l.
Qed.

Section Effects.
Variable P : platform.

Lemma fp_write_ok s st :
  encodable P s = true →
  fp_write P s st = (Ok tt, set_written (written st ++ [s]) st).
Proof. intros Hs. unfold fp_write. by rewrite Hs. Qed.

Lemma fp_write_raise s st :
  encodable P s = false →
  fp_write P s st = (Raise UnicodeEncodeError, st).
Proof. intros Hs. unfold fp_write. by rewrite Hs. Qed.

Lemma write_methods_run clazz methods st :
  forallb (encodable P) (line P clazz <$> methods) = true →
  write_methods P clazz methods st
  = (Ok tt, advance 0 (length methods) (line P clazz <$> methods) st).
Proof.
  revert st; induction methods as [|m ms IH]; intros st Hok.
  - simpl. by rewrite advance_0.
  - rewrite fmap_cons in Hok. cbn [forallb] in Hok.
    apply andb_true_iff in Hok as [Hm Hms].
    unfold write_methods in *. cbn [for_each]. unfold bind, modify.
    rewrite fp_write_ok by done. rewrite IH by done.
    f_equal. unfold advance; simpl.
    f_equal; [by rewrite <- app_assoc | lia].
Qed.

(** The first method whose line cannot be encoded stops the loop after
    line 48 has counted it. *)
Lemma write_methods_raise clazz mpre m mpost st :
  forallb (encodable P) (line P clazz <$> mpre) = true →
  encodable P (line P clazz m) = false →
  write_methods P clazz (mpre ++ m :: mpost) st
  = (Raise UnicodeEncodeError,
     advance 0 (length mpre + 1) (line P clazz <$> mpre) st).
Proof.
  intros Hpre Hm. unfold write_methods. rewrite for_each_app. unfold bind at 1.
  fold (write_methods P clazz mpre). rewrite write_methods_run by done.
  cbn [for_each]. unfold bind, modify. rewrite fp_write_raise by done.
  f_equal. unfold advance, set_method_count; simpl. f_equal; lia.
Qed.

Lemma forallb_lines (p : string → bool) clazz methods :
  forallb p (line P clazz <$> methods)
  = forallb (fun m => p (line P clazz m)) methods.
Proof.
  induction methods as [|m ms IH]; [done|].
  rewrite fmap_cons. cbn [forallb]. by rewrite IH.
Qed.

Lemma write_methods_bad clazz methods st :
  forallb (encodable P) (line P clazz <$> methods) = false →
  ∃ st', write_methods P clazz methods st = (Raise UnicodeEncodeError, st').
Proof.
  rewrite forallb_lines.
  intros (mpre & m & mpost & -> & Hpre & Hm)%forallb_false_split.
  rewrite write_methods_raise; [by eexists| |done].
  by rewrite forallb_lines.
Qed.

Lemma item_lines_eq item methods :
  py_iter item.2 = inr methods → item_lines P item = line P item.1 <$> methods.
Proof. intros H. unfold item_lines, item_methods. by rewrite H. Qed.

Lemma write_class_run item methods st :
  py_iter item.2 = inr methods →
  forallb (encodable P) (line P item.1 <$> methods) = true →
  write_class P item st
  = (Ok tt, advance 1 (length methods) (line P item.1 <$> methods) st).
Proof.
  intros Hit Hok. unfold write_class, bind, modify. rewrite Hit. simpl.
  rewrite write_methods_run by done. f_equal.
  unfold advance, set_class_count; simpl. f_equal; lia.
Qed.

Lemma write_class_raise item e st :
  py_iter item.2 = inl e →
  write_class P item st = (Raise e, advance 1 0 [] st).
Proof.
  intros Hit. unfold write_class, bind, modify. rewrite Hit. simpl.
  f_equal. unfold advance, set_class_count; simpl.
  by rewrite app_nil_r, Nat.add_0_r.
Qed.

Lemma py_iter_error v e : py_iter v = inl e → e = TypeError.
Proof. destruct v; simpl; congruence. Qed.

Lemma write_class_ok item st :
  item_ok P item = true →
  write_class P item st
  = (Ok tt, advance 1 (length (item_lines P item)) (item_lines P item) st).
Proof.
  unfold item_ok, iterable. intros [Hit Hok]%andb_true_iff.
  destruct (py_iter item.2) as [e|methods] eqn:Hiter; [done|].
  rewrite (item_lines_eq item methods) in * by done.
  rewrite length_fmap. by apply write_class_run.
Qed.

Lemma write_class_bad item st :
  item_ok P item = false →
  ∃ e st',
    write_class P item st = (Raise e, st')
    ∧ exit_status (@Raise unit e) = 1%Z.
Proof.
  unfold item_ok, iterable. intros Hbad.
  destruct (py_iter item.2) as [e|methods] eqn:Hiter.
  - rewrite (write_class_raise item e) by done.
    apply py_iter_error in Hiter as ->. by eexists _, _.
  - simpl in Hbad. rewrite (item_lines_eq item methods) in Hbad by done.
    unfold write_class, bind, modify. rewrite Hiter. simpl.
    destruct (write_methods_bad item.1 methods
                (set_class_count (class_count st + 1) st) Hbad)
      as (st' & ->). by eexists _, _.
Qed.

Lemma write_classes_run items st :
  items_ok P items = true →
  for_each items (write_class P) st
  = (Ok tt, advance (length items) (length (items ≫= item_lines P))
                    (items ≫= item_lines P) st).
Proof.
  revert st; induction items as [|item items IH]; intros st Hok.
  - simpl. by rewrite advance_0.
  - cbn [items_ok forallb] in Hok. apply andb_true_iff in Hok as [Hit Hok].
    cbn [for_each]. unfold bind.
    rewrite write_class_ok, IH by done.
    by rewrite advance_advance, bind_cons, length_app.
Qed.

Lemma write_classes_raise ipre item ipost e st :
  items_ok P ipre = true →
  py_iter item.2 = inl e →
  for_each (ipre ++ item :: ipost) (write_class P) st
  = (Raise e, advance (length ipre + 1) (length (ipre ≫= item_lines P))
                      (ipre ≫= item_lines P) st).
Proof.
  intros Hok Hit. rewrite for_each_app. unfold bind at 1.
  rewrite write_classes_run by done. simpl. unfold bind.
  rewrite (write_class_raise item e) by done.
  rewrite advance_advance. by rewrite app_nil_r, Nat.add_0_r.
Qed.

Lemma write_classes_bad items st :
  items_ok P items = false →
  ∃ e st',
    for_each items (write_class P) st = (Raise e, st')
    ∧ exit_status (@Raise unit e) = 1%Z.
Proof.
  intros (ipre & item & ipost & -> & Hpre & Hitem)%forallb_false_split.
  rewrite for_each_app. unfold bind at 1.
  rewrite write_classes_run by done. cbn [for_each]. unfold bind.
  destruct (write_class_bad item
              (advance (length ipre) (length (ipre ≫= item_lines P))
                 (ipre ≫= item_lines P) st) Hitem)
    as (e & st' & -> & He). by eexists _, _.
Qed.

Lemma write_file_unfold f st :
  write_file P f st
  = match file_items P (disk st) f with
    | inr items => for_each items (write_class P) st
    | inl e => (Raise e, st)
    end.
Proof.
  unfold write_file, file_items, read_file, load. monad_unfold.
  destruct (disk st !! f) as [text|]; monad_unfold; [|done].
  destruct (safe_load P text) as [v|]; monad_unfold; [|done].
  by destruct v.
Qed.

Lemma write_file_run f st :
  file_ok P (disk st) f = true →
  write_file P f st
  = (Ok tt, advance (file_classes P (disk st) f)
                    (length (file_lines P (disk st) f))
                    (file_lines P (disk st) f) st).
Proof.
  intros Hok. rewrite write_file_unfold.
  unfold file_ok, file_classes, file_lines in *.
  destruct (file_items P (disk st) f) as [e|items]; [done|].
  by apply write_classes_run.
Qed.

Lemma file_items_error d f e :
  file_items P d f = inl e → exit_status (@Raise unit e) = 1%Z.
Proof.
  unfold file_items. destruct (d !! f) as [text|]; [|by intros [= <-]].
  destruct (safe_load P text) as [v|]; [|by intros [= <-]].
  destruct v; simpl; by intros [= <-].
Qed.

Lemma write_file_raise f st :
  file_ok P (disk st) f = false →
  ∃ e st',
    write_file P f st = (Raise e, st')
    ∧ exit_status (@Raise unit e) = 1%Z.
Proof.
  intros Hbad. rewrite write_file_unfold. unfold file_ok in Hbad.
  destruct (file_items P (disk st) f) as [e|items] eqn:Hitems.
  - exists e, st. eauto using file_items_error.
  - by apply write_classes_bad.
Qed.

Lemma write_files_run fs st :
  files_ok P (disk st) fs = true →
  for_each fs (write_file P) st
  = (Ok tt, advance (files_classes P (disk st) fs)
                    (length (files_lines P (disk st) fs))
                    (files_lines P (disk st) fs) st).
Proof.
  revert st; induction fs as [|f fs IH]; intros st Hok.
  - simpl. by rewrite advance_0.
  - cbn [files_ok forallb] in Hok. apply andb_true_iff in Hok as [Hf Hok].
    cbn [for_each]. unfold bind. rewrite write_file_run by done.
    rewrite IH by done. rewrite advance_advance.
    unfold files_lines, files_classes.
    by rewrite bind_cons, length_app, fmap_cons.
Qed.

Lemma write_files_raise pre f post st :
  files_ok P (disk st) pre = true →
  file_ok P (disk st) f = false →
  ∃ e st',
    for_each (pre ++ f :: post) (write_file P) st = (Raise e, st')
    ∧ exit_status (@Raise unit e) = 1%Z.
Proof.
  intros Hpre Hbad. rewrite for_each_app. unfold bind at 1.
  rewrite write_files_run by done. cbn [for_each]. unfold bind.
  destruct (write_file_raise f (advance (files_classes P (disk st) pre)
    (length (files_lines P (disk st) pre)) (files_lines P (disk st) pre) st))
    as (e & st' & -> & He); [done|]. by eexists _, _.
Qed.

Lemma files_not_ok d fs :
  files_ok P d fs = false →
  ∃ pre f post,
    fs = pre ++ f :: post ∧ files_ok P d pre = true ∧ file_ok P d f = false.
Proof. apply forallb_false_split. Qed.

End Effects.

(** ** The state after the loops, whatever the outcome *)

Section Loops.
Variable P : platform.

Lemma write_methods_state clazz methods st :
  ∃ ls,
    (write_methods P clazz methods st).2
    = advance 0 (length ls + ahead (write_methods P clazz methods st).1) ls st
    ∧ Forall (is_line P) ls.
Proof.
  assert (∀ ms, Forall (is_line P) (line P clazz <$> ms)) as Hlines.
  { intros ms. apply Forall_fmap, Forall_forall. intros m _.
    by exists clazz, m. }
  destruct (forallb (encodable P) (line P clazz <$> methods)) eqn:Hok.
  - exists (line P clazz <$> methods). rewrite write_methods_run by done.
    simpl. by rewrite length_fmap, Nat.add_0_r.
  - rewrite forallb_lines in Hok.
    apply forallb_false_split in Hok as (mpre & m & mpost & -> & Hpre & Hm).
    exists (line P clazz <$> mpre).
    rewrite write_methods_raise by (by rewrite ?forallb_lines).
    simpl. by rewrite length_fmap.
Qed.

Lemma write_class_state item st :
  ∃ ls,
    (write_class P item st).2
    = advance 1 (length ls + ahead (write_class P item st).1) ls st
    ∧ Forall (is_line P) ls.
Proof.
  destruct (py_iter item.2) as [e|methods] eqn:Hiter.
  - exists []. rewrite (write_class_raise P item e) by done.
    apply py_iter_error in Hiter as ->. done.
  - destruct (write_methods_state item.1 methods
                (set_class_count (class_count st + 1) st))
      as (ls & Hst & Hls).
    exists ls. split; [|done].
    unfold write_class, bind, modify. rewrite Hiter. simpl.
    rewrite Hst. unfold advance, set_class_count; simpl. f_equal; lia.
Qed.

Lemma write_classes_state items st :
  ∃ c ls,
    (for_each items (write_class P) st).2
    = advance c
        (length ls + ahead (for_each items (write_class P) st).1) ls st
    ∧ Forall (is_line P) ls.
Proof.
  revert st; induction items as [|item items IH]; intros st.
  - exists 0, []. simpl. by rewrite advance_0.
  - destruct (write_class_state item st) as (ls1 & Hst1 & Hls1).
    cbn [for_each]. unfold bind.
    destruct (write_class P item st) as [[[]|e] st1]; simpl in Hst1.
    + destruct (IH st1) as (c & ls2 & Hst2 & Hls2).
      exists (1 + c), (ls1 ++ ls2).
      rewrite Hst2, Hst1, advance_advance, length_app.
      split; [f_equal; lia | by apply Forall_app].
    + exists 1, ls1. by split.
Qed.

Lemma write_file_state f st :
  ∃ c ls,
    (write_file P f st).2
    = advance c (length ls + ahead (write_file P f st).1) ls st
    ∧ Forall (is_line P) ls.
Proof.
  rewrite write_file_unfold.
  destruct (file_items P (disk st) f) as [e|items] eqn:Hitems.
  - exists 0, [].
    assert (ahead (@Raise unit e) = 0) as Hahead.
    { unfold file_items in Hitems.
      destruct (disk st !! f) as [text|]; [|by simplify_eq].
      destruct (safe_load P text) as [v|]; [|by simplify_eq].
      destruct v; simpl in Hitems; by simplify_eq. }
    cbn [fst snd length]. by rewrite Hahead, advance_0.
  - apply write_classes_state.
Qed.

Lemma write_files_state fs st :
  ∃ c ls,
    (for_each fs (write_file P) st).2
    = advance c (length ls + ahead (for_each fs (write_file P) st).1) ls st
    ∧ Forall (is_line P) ls.
Proof.
  revert st; induction fs as [|f fs IH]; intros st.
  - exists 0, []. simpl. by rewrite advance_0.
  - destruct (write_file_state f st) as (c1 & ls1 & Hst1 & Hls1).
    cbn [for_each]. unfold bind.
    destruct (write_file P f st) as [[[]|e] st1]; simpl in Hst1.
    + destruct (IH st1) as (c2 & ls2 & Hst2 & Hls2).
      exists (c1 + c2), (ls1 ++ ls2).
      rewrite Hst2, Hst1, advance_advance, length_app.
      split; [f_equal; lia | by apply Forall_app].
    + exists c1, ls1. by split.
Qed.

(** The loops never touch the files they read. *)
Lemma write_files_disk fs st :
  disk (for_each fs (write_file P) st).2 = disk st.
Proof. destruct (write_files_state fs st) as (c & ls & -> & _). done. Qed.

Lemma resolve_flat_map glob_paths :
  resolve P glob_paths = glob_paths ≫= glob P.
Proof.
  unfold resolve. rewrite <- (app_nil_l (glob_paths ≫= glob P)).
  generalize (@nil string) as yamls.
  induction glob_paths as [|p ps IH]; intros yamls; simpl.
  - by rewrite app_nil_r.
  - by rewrite IH, app_assoc.
Qed.

Lemma yaml_to_all_tests_unfold glob_paths out_file st :
  can_write P out_file = true →
  yaml_to_all_tests P glob_paths out_file st
  = match for_each (resolve P glob_paths) (write_file P)
            (opened P glob_paths out_file st) with
    | (Ok _, st2) => (Ok tt, reported out_file (closed out_file st2))
    | (Raise e, st2) => (Raise e, closed out_file st2)
    end.
Proof.
  intros Hw. unfold yaml_to_all_tests, with_open_w, emit. monad_unfold.
  rewrite Hw. unfold opened, set_written, set_disk. simpl.
  rewrite <- app_assoc. simpl.
  destruct (for_each _ _ _) as [[[]|e] st2]; done.
Qed.

Lemma unwritable_output_state glob_paths out_file st :
  can_write P out_file = false →
  yaml_to_all_tests P glob_paths out_file st
  = (Raise OSError,
     State (disk st) (written st) 0 0
           (console st ++ [LogReceived glob_paths;
                           LogFound (length (resolve P glob_paths))])).
Proof.
  intros Hw. unfold yaml_to_all_tests, with_open_w, emit. monad_unfold.
  rewrite Hw. unfold set_method_count, set_class_count, set_console. simpl.
  by rewrite <- app_assoc.
Qed.

Lemma yaml_to_all_tests_ok glob_paths out_file st :
  can_write P out_file = true →
  files_ok P (<[out_file := ""]> (disk st)) (resolve P glob_paths) = true →
  let d := <[out_file := ""]> (disk st) in
  let yamls := resolve P glob_paths in
  yaml_to_all_tests P glob_paths out_file st
  = (Ok tt, reported out_file (closed out_file
              (advance (files_classes P d yamls)
                       (length (files_lines P d yamls))
                       (files_lines P d yamls)
                       (opened P glob_paths out_file st)))).
Proof.
  intros Hw Hok. simpl. rewrite yaml_to_all_tests_unfold by done.
  by rewrite write_files_run.
Qed.

Lemma yaml_to_all_tests_raise glob_paths out_file st :
  files_ok P (<[out_file := ""]> (disk st)) (resolve P glob_paths) = false →
  ∃ e st', yaml_to_all_tests P glob_paths out_file st = (Raise e, st')
           ∧ exit_status (@Raise unit e) = 1%Z.
Proof.
  intros Hbad. destruct (can_write P out_file) eqn:Hw.
  - rewrite yaml_to_all_tests_unfold by done.
    apply files_not_ok in Hbad as (pre & f & post & -> & Hpre & Hf).
    destruct (write_files_raise P pre f post
                (opened P glob_paths out_file st))
      as (e & st' & -> & He); [done..|]. by eexists _, _.
  - rewrite unwritable_output_state by done. by eexists _, _.
Qed.

Lemma yaml_to_all_tests_ok_inv glob_paths out_file st st' :
  yaml_to_all_tests P glob_paths out_file st = (Ok tt, st') →
  can_write P out_file = true
  ∧ files_ok P (<[out_file := ""]> (disk st)) (resolve P glob_paths) = true.
Proof.
  intros Hrun. split.
  - destruct (can_write P out_file) eqn:Hw; [done|].
    rewrite unwritable_output_state in Hrun by done. done.
  - destruct (files_ok _ _ _) eqn:Hok; [done|].
    destruct (yaml_to_all_tests_raise _ _ _ Hok) as (e & st2 & Hr & _).
    congruence.
Qed.

(** What the file holds after the [with] block. *)
Lemma closed_content out_file st :
  disk (reported out_file (closed out_file st)) !! out_file
  = Some (flush (written st)).
Proof. simpl. apply lookup_insert_eq. Qed.

End Loops.

(** ** Valid catalogs *)

Lemma forallb_Forall_true {A} (p : A → bool) l :
  Forall (fun x => p x = true) l → forallb p l = true.
Proof. induction 1 as [|x l Hx _ IH]; [done|]. simpl. by rewrite Hx. Qed.

Lemma append_assoc s1 s2 s3 : (s1 +:+ s2) +:+ s3 = s1 +:+ (s2 +:+ s3).
Proof.
  induction s1 as [|c s1 IH]; [done|].
  change (String c ((s1 +:+ s2) +:+ s3) = String c (s1 +:+ (s2 +:+ s3))).
  by f_equal.
Qed.

Lemma append_nil_r s : s +:+ "" = s.
Proof.
  induction s as [|c s IH]; [done|].
  change (String c (s +:+ "") = String c s). by f_equal.
Qed.

Lemma flush_app l1 l2 : flush (l1 ++ l2) = flush l1 +:+ flush l2.
Proof.
  induction l1 as [|chunk l1 IH]; [done|].
  change (flush ((chunk :: l1) ++ l2)) with (chunk +:+ flush (l1 ++ l2)).
  change (flush (chunk :: l1)) with (chunk +:+ flush l1).
  by rewrite IH, append_assoc.
Qed.

Lemma mapM_app_Some {A B} (f : A → option B) l1 l2 k1 k2 :
  mapM f l1 = Some k1 → mapM f l2 = Some k2 →
  mapM f (l1 ++ l2) = Some (k1 ++ k2).
Proof.
  rewrite !mapM_Some. apply Forall2_app.
Qed.

Lemma newlines_app s1 s2 : newlines (s1 +:+ s2) = newlines s1 + newlines s2.
Proof. induction s1 as [|c s1 IH]; simpl; [done|]. rewrite IH. lia. Qed.

Lemma newlines_record clazz method :
  single_line clazz → single_line method → newlines (record clazz method) = 1.
Proof.
  unfold single_line, record. intros Hc Hm.
  rewrite !newlines_app, Hc, Hm. done.
Qed.

Lemma newlines_flush chunks :
  Forall (fun chunk => newlines chunk = 1) chunks →
  newlines (flush chunks) = length chunks.
Proof.
  induction 1 as [|chunk chunks Hc _ IH]; simpl; [done|].
  by rewrite newlines_app, Hc, IH.
Qed.

Lemma newlines_all_records cats :
  names_single_line cats →
  Forall (fun chunk => newlines chunk = 1) (all_records cats).
Proof.
  unfold names_single_line, all_records, catalog_records, class_records.
  intros Hcats. apply Forall_forall. intros chunk.
  intros (cat & Hchunk & Hcat)%list_elem_of_bind.
  apply list_elem_of_bind in Hchunk as (entry & Hchunk & Hentry).
  apply list_elem_of_fmap in Hchunk as (method & -> & Hmethod).
  rewrite Forall_forall in Hcats. specialize (Hcats cat Hcat).
  rewrite Forall_forall in Hcats. destruct (Hcats entry Hentry) as [Hc Hms].
  rewrite Forall_forall in Hms. apply newlines_record; auto.
Qed.

Lemma all_records_empty cats :
  Forall (Forall (fun entry : string * list string => entry.2 = [])) cats →
  all_records cats = [].
Proof.
  unfold all_records, catalog_records, class_records.
  induction 1 as [|cat cats Hcat _ IH]; [done|].
  rewrite bind_cons, IH, app_nil_r.
  induction Hcat as [|entry cat Hentry _ IHcat]; [done|].
  by rewrite bind_cons, Hentry, IHcat.
Qed.

Lemma length_catalog_records cat :
  length (catalog_records cat) = catalog_methods cat.
Proof.
  unfold catalog_records, catalog_methods.
  induction cat as [|entry cat IH]; [done|].
  rewrite bind_cons, length_app, fmap_cons. cbn [sum_list].
  unfold class_records at 1. by rewrite length_fmap, IH.
Qed.

Lemma length_all_records cats :
  length (all_records cats) = total_methods cats.
Proof.
  unfold all_records, total_methods.
  induction cats as [|cat cats IH]; [done|].
  rewrite bind_cons, length_app, fmap_cons. cbn [sum_list].
  by rewrite length_catalog_records, IH.
Qed.

Section CatalogFacts.
Variable P : platform.

Lemma encodable_app s1 s2 :
  encodable P (s1 +:+ s2) = encodable P s1 && encodable P s2.
Proof.
  induction s1 as [|c s1 IH]; [done|].
  change (encodable P (String c (s1 +:+ s2))
          = encodable P (String c s1) && encodable P s2).
  cbn [encodable]. by rewrite IH, andb_assoc.
Qed.

Lemma encodable_record clazz method :
  encodable P clazz = true → encodable P method = true →
  encodable P (record clazz method) = true.
Proof.
  intros Hc Hm. unfold record. by rewrite !encodable_app, Hc, Hm.
Qed.

Lemma names_encodable_records cats :
  names_encodable P cats →
  Forall (fun chunk => encodable P chunk = true) (all_records cats).
Proof.
  unfold names_encodable, all_records, catalog_records, class_records.
  intros Hcats. apply Forall_forall. intros chunk.
  intros (cat & Hchunk & Hcat)%list_elem_of_bind.
  apply list_elem_of_bind in Hchunk as (entry & Hchunk & Hentry).
  apply list_elem_of_fmap in Hchunk as (method & -> & Hmethod).
  rewrite Forall_forall in Hcats. specialize (Hcats cat Hcat).
  rewrite Forall_forall in Hcats. destruct (Hcats entry Hentry) as [Hc Hms].
  rewrite Forall_forall in Hms. apply encodable_record; auto.
Qed.

Lemma as_str_fmap methods ms :
  mapM as_str methods = Some ms → methods = PStr <$> ms.
Proof.
  intros Hall%mapM_Some_1.
  induction Hall as [|v s vs ss Hv _ IH]; [done|].
  destruct v; simplify_eq/=. by f_equal.
Qed.

Lemma as_class_item item entry :
  as_class item = Some entry →
  item.1 = PStr entry.1 ∧ py_iter item.2 = inr (PStr <$> entry.2).
Proof.
  destruct item as [[] []]; simpl; try done.
  destruct (mapM as_str l) as [ms|] eqn:Hms; [|done].
  intros [= <-]. simpl. by rewrite (as_str_fmap _ _ Hms).
Qed.

Lemma as_class_lines item entry :
  as_class item = Some entry → item_lines P item = class_records entry.
Proof.
  intros [Hc Hms]%as_class_item.
  rewrite (item_lines_eq P item _ Hms), Hc.
  unfold class_records. rewrite <- list_fmap_compose.
  by apply list_fmap_ext.
Qed.

Lemma as_catalog_items v cat :
  as_catalog v = Some cat →
  Forall (fun chunk => encodable P chunk = true) (catalog_records cat) →
  ∃ items, py_items v = inr items ∧ items_ok P items = true
           ∧ items ≫= item_lines P = catalog_records cat
           ∧ length items = length cat.
Proof.
  destruct v; try done. simpl. intros Hall%mapM_Some_1 Henc.
  exists d. split; [done|].
  induction Hall as [|item entry items cat Hitem _ IH]; [done|].
  unfold catalog_records in Henc. rewrite bind_cons in Henc.
  apply Forall_app in Henc as [Hentry Hrest].
  destruct (IH Hrest) as (IH1 & IH2 & IH3).
  pose proof (as_class_item _ _ Hitem) as [_ Hiter].
  pose proof (as_class_lines _ _ Hitem) as Hlines.
  repeat split.
  - cbn [items_ok forallb]. rewrite andb_true_iff. split; [|done].
    unfold item_ok, iterable. rewrite Hiter, Hlines. simpl.
    by apply forallb_Forall_true.
  - unfold catalog_records. rewrite !bind_cons, Hlines. by f_equal.
  - simpl. by f_equal.
Qed.

Lemma load_catalog_file d f cat :
  load_catalog P d f = Some cat →
  Forall (fun chunk => encodable P chunk = true) (catalog_records cat) →
  file_ok P d f = true ∧ file_lines P d f = catalog_records cat
  ∧ file_classes P d f = length cat.
Proof.
  unfold load_catalog, file_ok, file_lines, file_classes, file_items.
  destruct (d !! f) as [text|]; [|done].
  destruct (safe_load P text) as [v|]; [|done].
  intros Hcat Henc.
  by destruct (as_catalog_items v cat Hcat Henc)
    as (items & -> & Hok & Hlines & Hlen).
Qed.

Lemma load_catalogs_files d fs cats :
  mapM (load_catalog P d) fs = Some cats →
  Forall (fun chunk => encodable P chunk = true) (all_records cats) →
  files_ok P d fs = true ∧ files_lines P d fs = all_records cats
  ∧ files_classes P d fs = total_classes cats.
Proof.
  intros Hall%mapM_Some_1.
  induction Hall as [|f cat fs cats Hf _ IH]; [done|].
  unfold all_records. rewrite bind_cons. intros [Hcat Hrest]%Forall_app.
  destruct (IH Hrest) as (IH1 & IH2 & IH3).
  destruct (load_catalog_file _ _ _ Hf Hcat) as (Hok & Hlines & Hlen).
  unfold files_ok, files_lines, files_classes, all_records, total_classes
    in *.
  cbn [forallb]. rewrite !bind_cons, !fmap_cons. cbn [sum_list].
  rewrite Hok, Hlines, Hlen, IH1, IH2, IH3. done.
Qed.

Lemma resolve_app ps1 ps2 :
  resolve P (ps1 ++ ps2) = resolve P ps1 ++ resolve P ps2.
Proof. rewrite !resolve_flat_map. apply bind_app. Qed.

(** A run over valid catalogs whose records can be encoded, in one
    statement. *)
Lemma valid_run glob_paths out_file st cats :
  can_write P out_file = true →
  mapM (load_catalog P (run_disk out_file st)) (resolve P glob_paths)
  = Some cats →
  Forall (fun chunk => encodable P chunk = true) (all_records cats) →
  ∃ st',
    yaml_to_all_tests P glob_paths out_file st = (Ok tt, st')
    ∧ disk st' !! out_file = Some (flush (written st'))
    ∧ written st' = all_records cats
    ∧ class_count st' = total_classes cats
    ∧ method_count st' = total_methods cats
    ∧ last (console st')
      = Some (LogWrote (total_methods cats) (total_classes cats) out_file).
Proof.
  intros Hw Hcats Henc.
  destruct (load_catalogs_files _ _ _ Hcats Henc) as (Hok & Hlines & Hcls).
  unfold run_disk in Hok, Hlines, Hcls.
  eexists. split; [by apply yaml_to_all_tests_ok|].
  split; [by rewrite closed_content|]. simpl.
  rewrite Hlines, Hcls, length_all_records, last_snoc. done.
Qed.

End CatalogFacts.

(** ** Runs that end with an exception *)

Lemma files_ok_elem (P : platform) d fs f :
  f ∈ fs → file_ok P d f = false → files_ok P d fs = false.
Proof.
  intros Hin Hbad. destruct (files_ok P d fs) eqn:Hok; [|done].
  unfold files_ok in Hok. rewrite forallb_forall in Hok.
  rewrite <- Hbad. symmetry. apply Hok. by apply list_elem_of_In.
Qed.

Lemma run_raise_elem (P : platform) glob_paths out_file st f :
  f ∈ resolve P glob_paths →
  file_ok P (run_disk out_file st) f = false →
  ∃ e st',
    yaml_to_all_tests P glob_paths out_file st = (Raise e, st')
    ∧ exit_status (@Raise unit e) = 1%Z.
Proof.
  intros Hin Hbad. apply yaml_to_all_tests_raise.
  by apply (files_ok_elem P _ _ f).
Qed.

Lemma item_ok_iterable (P : platform) item :
  item_ok P item = true → iterable item.2 = true.
Proof. unfold item_ok. by intros [? _]%andb_true_iff. Qed.

Lemma unusable_file_not_ok (P : platform) d f text v :
  d !! f = Some text →
  safe_load P text = Some v →
  is_mapping v = false ∨ has_scalar_value v = true →
  file_ok P d f = false.
Proof.
  intros Hread Hload Hshape. unfold file_ok, file_items.
  rewrite Hread, Hload.
  destruct v as [| | | | |l|items]; try done;
    destruct Hshape as [?|Hscalar]; try done.
  simpl in *. apply existsb_exists in Hscalar as (item & Hin & Hit).
  destruct (items_ok P items) eqn:Hok; [|done].
  unfold items_ok in Hok. rewrite forallb_forall in Hok.
  rewrite (item_ok_iterable P item (Hok item Hin)) in Hit. done.
Qed.

(** ** The run, point by point *)

Lemma bind_assoc {A B C} (m : M A) (k : A → M B) (k' : B → M C) st :
  bind (bind m k) k' st = bind m (fun x => bind (k x) k') st.
Proof. unfold bind. by destruct (m st) as [[a|e] st1]. Qed.

Lemma count_class st :
  set_class_count (class_count st + 1) st = advance 1 0 [] st.
Proof.
  unfold advance, set_class_count. by rewrite app_nil_r, Nat.add_0_r.
Qed.

Section Points.
Variable P : platform.

Lemma write_class_split item mpre mpost st :
  py_iter item.2 = inr (mpre ++ mpost) →
  write_class P item st
  = ((modify (fun st => set_class_count (class_count st + 1) st);;
      write_methods P item.1 mpre);;
     write_methods P item.1 mpost) st.
Proof.
  intros Hit. unfold write_class. rewrite Hit, bind_assoc.
  unfold bind at 1 2. unfold modify, lift, ret. cbn [fst snd].
  unfold bind at 1. unfold write_methods. by rewrite for_each_app.
Qed.

(** The loop over the files is what it does before a point of the run
    followed by what it does after it. *)
Lemma run_through_point pt yamls st :
  on_run P (disk st) yamls pt →
  for_each yamls (write_file P) st = (before P pt;; after P pt) st.
Proof.
  destruct pt as [pre post|pre f post ipre ipost
                 |pre f post ipre item ipost mpre mpost]; simpl.
  - intros ->. apply for_each_app.
  - intros [-> Hitems]. rewrite for_each_app. cbn [for_each]. unfold bind.
    pose proof (write_files_disk P pre st) as Hd.
    destruct (for_each pre (write_file P) st) as [[[]|e] st1]; [|done].
    simpl in Hd. rewrite write_file_unfold, Hd, Hitems, for_each_app.
    unfold bind.
    by destruct (for_each ipre (write_class P) st1) as [[[]|e] st2].
  - intros (-> & Hitems & Hit). rewrite for_each_app. cbn [for_each].
    unfold bind. pose proof (write_files_disk P pre st) as Hd.
    destruct (for_each pre (write_file P) st) as [[[]|e] st1]; [|done].
    simpl in Hd. rewrite write_file_unfold, Hd, Hitems, for_each_app.
    unfold bind.
    destruct (for_each ipre (write_class P) st1) as [[[]|e] st2]; [|done].
    cbn [for_each]. unfold bind.
    rewrite (write_class_split item mpre mpost) by done. unfold bind.
    unfold modify.
    destruct (write_methods P item.1 mpre _) as [[[]|e] st3]; [|done].
    destruct (write_methods P item.1 mpost st3) as [[[]|e] st4]; [|done].
    by destruct (for_each ipost (write_class P) st4) as [[[]|e] st5].
Qed.

Lemma files_ok_app d fs1 fs2 :
  files_ok P d (fs1 ++ fs2) = true →
  files_ok P d fs1 = true ∧ files_ok P d fs2 = true.
Proof. unfold files_ok. rewrite forallb_app. apply andb_true_iff. Qed.

Lemma file_ok_items d f items :
  files_ok P d [f] = true →
  file_items P d f = inr items →
  items_ok P items = true.
Proof.
  unfold files_ok, file_ok. cbn [forallb]. intros Hok Hitems.
  by rewrite Hitems, andb_true_r in Hok.
Qed.

Lemma items_ok_app items1 items2 :
  items_ok P (items1 ++ items2) = true →
  items_ok P items1 = true ∧ items_ok P items2 = true.
Proof. unfold items_ok. rewrite forallb_app. apply andb_true_iff. Qed.

(** What is written without a line break makes one line. *)
Lemma plain_line clazz method :
  plain P clazz → plain P method → newlines (line P clazz method) = 1.
Proof.
  unfold plain, single_line, line. intros Hc Hm.
  rewrite !newlines_app, Hc, Hm. done.
Qed.

Lemma plain_methods_lines clazz methods :
  plain P clazz → Forall (plain P) methods →
  Forall (fun chunk => newlines chunk = 1) (line P clazz <$> methods).
Proof.
  intros Hc Hms. apply Forall_fmap. eapply Forall_impl; [exact Hms|].
  intros m Hm. by apply plain_line.
Qed.

Lemma plain_items_lines items :
  Forall (plain_item P) items →
  Forall (fun chunk => newlines chunk = 1) (items ≫= item_lines P).
Proof.
  induction 1 as [|item items [Hc Hms] _ IH]; [constructor|].
  rewrite bind_cons. apply Forall_app. split; [|done].
  by apply plain_methods_lines.
Qed.

Lemma plain_file_lines d f :
  plain_file P d f →
  Forall (fun chunk => newlines chunk = 1) (file_lines P d f).
Proof.
  unfold plain_file, file_lines. intros Hplain.
  destruct (file_items P d f) as [e|items]; [constructor|].
  by apply plain_items_lines, Hplain.
Qed.

Lemma plain_files_lines d fs :
  Forall (plain_file P d) fs →
  Forall (fun chunk => newlines chunk = 1) (files_lines P d fs).
Proof.
  unfold files_lines. induction 1 as [|f fs Hf _ IH]; [constructor|].
  rewrite bind_cons. apply Forall_app. split; [|done].
  by apply plain_file_lines.
Qed.

(** The state at a point of a run that gets through all files: the
    classes come to are counted, and the method counter counts the
    chunks written, each of which is one line when nothing is written
    with a line break. *)
Lemma before_counters pt yamls st :
  on_run P (disk st) yamls pt →
  files_ok P (disk st) yamls = true →
  ∃ ls,
    before P pt st
    = (Ok tt, advance (classes_seen P (disk st) pt) (length ls) ls st)
    ∧ (Forall (plain_file P (disk st)) yamls →
       Forall (fun chunk => newlines chunk = 1) ls).
Proof.
  destruct pt as [pre post|pre f post ipre ipost
                 |pre f post ipre item ipost mpre mpost]; simpl.
  - intros -> [Hpre _]%files_ok_app.
    exists (files_lines P (disk st) pre).
    split; [by apply write_files_run|].
    intros [Hplain _]%Forall_app. by apply plain_files_lines.
  - intros [-> Hitems] [Hpre Hf]%files_ok_app.
    apply (files_ok_app _ [f]) in Hf as [Hf _].
    pose proof (file_ok_items _ _ _ Hf Hitems) as Hall.
    apply items_ok_app in Hall as [Hipre _].
    exists (files_lines P (disk st) pre ++ (ipre ≫= item_lines P)). split.
    + unfold bind. rewrite write_files_run by done.
      rewrite write_classes_run by done.
      by rewrite advance_advance, length_app.
    + intros [Hplain Hrest]%Forall_app. apply Forall_app. split.
      * by apply plain_files_lines.
      * apply Forall_cons in Hrest as [Hpf _].
        specialize (Hpf _ Hitems). apply Forall_app in Hpf as [Hpf _].
        by apply plain_items_lines.
  - intros (-> & Hitems & Hit) [Hpre Hf]%files_ok_app.
    apply (files_ok_app _ [f]) in Hf as [Hf _].
    pose proof (file_ok_items _ _ _ Hf Hitems) as Hall.
    apply items_ok_app in Hall as [Hipre Hrest].
    apply (items_ok_app [item]) in Hrest as [Hitem _].
    unfold items_ok in Hitem. cbn [forallb] in Hitem.
    rewrite andb_true_r in Hitem. unfold item_ok in Hitem.
    apply andb_true_iff in Hitem as [_ Henc].
    rewrite (item_lines_eq P item _ Hit), fmap_app, forallb_app in Henc.
    apply andb_true_iff in Henc as [Henc _].
    exists (files_lines P (disk st) pre ++ (ipre ≫= item_lines P)
            ++ (line P item.1 <$> mpre)). split.
    + unfold bind. rewrite write_files_run by done.
      rewrite write_classes_run by done. unfold modify.
      rewrite count_class, write_methods_run by done.
      rewrite !advance_advance, !length_app, length_fmap.
      f_equal. unfold advance. f_equal; lia.
    + intros [Hplain Hrest]%Forall_app. apply Forall_app. split.
      { by apply plain_files_lines. }
      apply Forall_cons in Hrest as [Hpf _].
      specialize (Hpf _ Hitems). apply Forall_app in Hpf as [Hpf Hpi].
      apply Forall_cons in Hpi as [[Hc Hms] _].
      unfold item_methods in Hms. rewrite Hit in Hms.
      apply Forall_app in Hms as [Hms _].
      apply Forall_app. split; [by apply plain_items_lines|].
      by apply plain_methods_lines.
Qed.

End Points.

(** When the loop has come through the files [pre] and cannot have the
    items of the next file, the run ends with that exception and the
    output file holds what was written until then. *)
Lemma run_raise_after (P : platform) glob_paths out_file st pre f post e mid :
  can_write P out_file = true →
  resolve P glob_paths = pre ++ f :: post →
  for_each pre (write_file P) (opened P glob_paths out_file st)
  = (Ok tt, mid) →
  file_items P (run_disk out_file st) f = inl e →
  ∃ st',
    yaml_to_all_tests P glob_paths out_file st = (Raise e, st')
    ∧ written st' = written mid
    ∧ disk st' !! out_file = Some (flush (written mid)).
Proof.
  intros Hw Hsplit Hpre Hf.
  rewrite yaml_to_all_tests_unfold, Hsplit, for_each_app by done.
  unfold bind at 1. rewrite Hpre. cbn [for_each]. unfold bind.
  pose proof (write_files_disk P pre (opened P glob_paths out_file st))
    as Hd.
  rewrite Hpre in Hd. simpl in Hd.
  rewrite write_file_unfold, Hd. unfold run_disk in Hf. rewrite Hf.
  eexists. split; [done|]. split; [done|]. apply lookup_insert_eq.
Qed.

(** A run that ends with an exception leaves in the output file what
    it has written. *)
Lemma run_raise_content (P : platform) glob_paths out_file st e st' :
  can_write P out_file = true →
  yaml_to_all_tests P glob_paths out_file st = (Raise e, st') →
  disk st' !! out_file = Some (flush (written st')).
Proof.
  intros Hw. rewrite yaml_to_all_tests_unfold by done.
  destruct (for_each _ _ _) as [[[]|e2] st2]; [done|].
  intros [= _ <-]. apply lookup_insert_eq.
Qed.

(** * The claims of the specification *)

(** C1, as the code has it.  When every resolved file holds a mapping
    from class-name strings to sequences of method-name strings, and the
    encoding of the output file can encode every name,
    [yaml_to_all_tests] completes and the output file holds exactly the
    records [<class>#<method>], each ended by a newline, in file order,
    then key order, then element order; for the single file
    [{"Foo": ["a","b"]}] that is [Foo#a], newline, [Foo#b], newline,
    whatever the encoding. *)
Theorem output_is_all_records (P : platform) glob_paths out_file st cats :
  can_write P out_file = true →
  mapM (load_catalog P (run_disk out_file st)) (resolve P glob_paths)
  = Some cats →
  (names_encodable P cats →
   ∃ st',
     yaml_to_all_tests P glob_paths out_file st = (Ok tt, st')
     ∧ disk st' !! out_file = Some (expected_output cats))
  ∧ (cats = [[("Foo", ["a"; "b"])]] →
     ∃ st',
       yaml_to_all_tests P glob_paths out_file st = (Ok tt, st')
       ∧ disk st' !! out_file = Some ("Foo#a" +:+ LF +:+ "Foo#b" +:+ LF)).
Proof.
  intros Hw Hcats. split.
  - intros Henc%names_encodable_records.
    destruct (valid_run P glob_paths out_file st cats)
      as (st' & Hrun & Hout & Hwr & _); [done..|].
    rewrite Hwr in Hout. by exists st'.
  - intros ->.
    destruct (valid_run P glob_paths out_file st [[("Foo", ["a"; "b"])]])
      as (st' & Hrun & Hout & Hwr & _); [done..| |].
    { by repeat constructor. }
    rewrite Hwr in Hout. by exists st'.
Qed.

Lemma output_is_all_records_witness :
  can_write Demo.platform "out.txt" = true
  ∧ mapM (load_catalog Demo.platform (run_disk "out.txt" Demo.start))
         (resolve Demo.platform ["one/*.yaml"])
    = Some [[("Foo", ["a"; "b"])]]
  ∧ ∃ st',
      yaml_to_all_tests Demo.platform ["one/*.yaml"] "out.txt" Demo.start
      = (Ok tt, st')
      ∧ disk st' !! "out.txt" = Some ("Foo#a" +:+ LF +:+ "Foo#b" +:+ LF).
Proof.
  split; [reflexivity|]. split; [vm_compute; reflexivity|].
  destruct (output_is_all_records Demo.platform ["one/*.yaml"] "out.txt"
              Demo.start [[("Foo", ["a"; "b"])]])
    as [_ Hfoo]; [reflexivity | vm_compute; reflexivity |].
  exact (Hfoo eq_refl).
Defined.

(** C1, as the claim has it, fails: the file [Foo: [a, "\ud800", b]] is
    a mapping from a string to a sequence of three strings; the second
    has no code in the encoding of the output file, [fp.write] raises
    on it, and the output file holds the first record only. *)
Lemma unencodable_name_aborts :
  can_write Cases.platform "out.txt" = true
  ∧ mapM (load_catalog Cases.platform (run_disk "out.txt" Cases.start))
         (resolve Cases.platform ["sur/*.yaml"])
    = Some [[("Foo", ["a"; Cases.surrogate; "b"])]]
  ∧ ∃ st',
      yaml_to_all_tests Cases.platform ["sur/*.yaml"] "out.txt" Cases.start
      = (Raise UnicodeEncodeError, st')
      ∧ disk st' !! "out.txt" = Some ("Foo#a" +:+ LF)
      ∧ disk st' !! "out.txt"
        ≠ Some (expected_output [[("Foo", ["a"; Cases.surrogate; "b"])]]).
Proof.
  split; [reflexivity|]. split; [vm_compute; reflexivity|].
  eexists. split; [vm_compute; reflexivity|].
  split; [vm_compute; reflexivity|]. vm_compute. discriminate.
Qed.

(** C2, as the code has it.  For valid inputs in which no class or
    method name contains a line break and every name can be encoded,
    the run completes and the number of lines of the output file, its
    newline characters, is the number of method-sequence elements of all
    resolved files, a file resolved twice counting twice. *)
Theorem output_line_count (P : platform) glob_paths out_file st cats :
  can_write P out_file = true →
  mapM (load_catalog P (run_disk out_file st)) (resolve P glob_paths)
  = Some cats →
  names_single_line cats →
  names_encodable P cats →
  ∃ st' text,
    yaml_to_all_tests P glob_paths out_file st = (Ok tt, st')
    ∧ disk st' !! out_file = Some text
    ∧ newlines text = total_methods cats.
Proof.
  intros Hw Hcats Hnames Henc%names_encodable_records.
  destruct (valid_run P glob_paths out_file st cats)
    as (st' & Hrun & Hout & Hwr & _); [done..|].
  exists st', (flush (written st')). repeat split; [done..|].
  rewrite Hwr. rewrite newlines_flush by by apply newlines_all_records.
  apply length_all_records.
Qed.

Lemma output_line_count_witness :
  can_write Demo.platform "out.txt" = true
  ∧ mapM (load_catalog Demo.platform (run_disk "out.txt" Demo.start))
         (resolve Demo.platform Demo.two_patterns)
    = Some [[("Foo", ["a"; "b"])]; [("Foo", ["a"])]; [("Foo", ["a"])]]
  ∧ names_single_line
      [[("Foo", ["a"; "b"])]; [("Foo", ["a"])]; [("Foo", ["a"])]]
  ∧ names_encodable Demo.platform
      [[("Foo", ["a"; "b"])]; [("Foo", ["a"])]; [("Foo", ["a"])]]
  ∧ ∃ st' text,
      yaml_to_all_tests Demo.platform Demo.two_patterns "out.txt" Demo.start
      = (Ok tt, st')
      ∧ disk st' !! "out.txt" = Some text
      ∧ newlines text = 4.
Proof.
  split; [reflexivity|]. split; [vm_compute; reflexivity|].
  split; [repeat constructor|]. split; [repeat constructor|].
  apply (output_line_count Demo.platform Demo.two_patterns "out.txt"
           Demo.start
           [[("Foo", ["a"; "b"])]; [("Foo", ["a"])]; [("Foo", ["a"])]]);
    [reflexivity | vm_compute; reflexivity | repeat constructor
    | repeat constructor].
Defined.

(** C2, as the claim has it, fails on two valid inputs.  The file
    [Foo: ["a\nb"]] holds one method, and the output file has two lines
    for it.  The file [Foo: [a, "\ud800", b]] holds three methods, and
    the run ends at the second with one line in the output file. *)
Lemma lines_differ_from_methods :
  (mapM (load_catalog Demo.platform (run_disk "out.txt" Demo.start))
        (resolve Demo.platform ["brk/*.yaml"])
   = Some [[("Foo", ["a" +:+ LF +:+ "b"])]]
   ∧ ∃ st' text,
       yaml_to_all_tests Demo.platform ["brk/*.yaml"] "out.txt" Demo.start
       = (Ok tt, st')
       ∧ disk st' !! "out.txt" = Some text
       ∧ text = "Foo#a" +:+ LF +:+ "b" +:+ LF
       ∧ newlines text = 2
       ∧ total_methods [[("Foo", ["a" +:+ LF +:+ "b"])]] = 1)
  ∧ (mapM (load_catalog Cases.platform (run_disk "out.txt" Cases.start))
          (resolve Cases.platform ["sur/*.yaml"])
     = Some [[("Foo", ["a"; Cases.surrogate; "b"])]]
     ∧ ∃ st' text,
         yaml_to_all_tests Cases.platform ["sur/*.yaml"] "out.txt"
           Cases.start = (Raise UnicodeEncodeError, st')
         ∧ disk st' !! "out.txt" = Some text
         ∧ newlines text = 1
         ∧ total_methods [[("Foo", ["a"; Cases.surrogate; "b"])]] = 3).
Proof.
  split.
  - split; [vm_compute; reflexivity|].
    eexists _, ("Foo#a" +:+ LF +:+ "b" +:+ LF).
    split; [apply yaml_to_all_tests_ok; reflexivity|].
    split; [rewrite closed_content; reflexivity|].
    split; [reflexivity|]. split; reflexivity.
  - split; [vm_compute; reflexivity|].
    eexists _, ("Foo#a" +:+ LF).
    split; [vm_compute; reflexivity|].
    split; [vm_compute; reflexivity|]. split; reflexivity.
Qed.

(** C3.  Every pattern is expanded on its own and the expansions are
    concatenated in the order of the patterns, nothing being removed: a
    file that two patterns match is in the list of resolved files
    twice, so that the loop runs its body on the file and then on the
    file again, and two files that both hold [{"Foo": ["a"]}] give the
    line [Foo#a] twice.  For catalogs whose names can be encoded, the
    output for two lists of patterns is the output for the first
    followed by the output for the second, and the records of a file
    that two patterns match are written twice. *)
Theorem patterns_are_concatenated (P : platform) out_file st :
  can_write P out_file = true →
  (∀ glob_paths, resolve P glob_paths = concat (glob P <$> glob_paths))
  ∧ (∀ ps1 ps2,
       resolve P (ps1 ++ ps2) = resolve P ps1 ++ resolve P ps2)
  ∧ (∀ ps1 ps2 cats1 cats2,
       mapM (load_catalog P (run_disk out_file st)) (resolve P ps1)
       = Some cats1 →
       mapM (load_catalog P (run_disk out_file st)) (resolve P ps2)
       = Some cats2 →
       names_encodable P (cats1 ++ cats2) →
       ∃ st',
         yaml_to_all_tests P (ps1 ++ ps2) out_file st = (Ok tt, st')
         ∧ disk st' !! out_file
           = Some (expected_output cats1 +:+ expected_output cats2))
  ∧ (∀ p q f,
       glob P p = [f] → glob P q = [f] →
       resolve P [p; q] = [f; f]
       ∧ for_each (resolve P [p; q]) (write_file P)
         = (write_file P f;; write_file P f;; ret tt)
       ∧ ∀ cat,
           load_catalog P (run_disk out_file st) f = Some cat →
           names_encodable P [cat] →
           ∃ st',
             yaml_to_all_tests P [p; q] out_file st = (Ok tt, st')
             ∧ written st' = catalog_records cat ++ catalog_records cat)
  ∧ (∀ p f1 f2,
       glob P p = [f1; f2] →
       load_catalog P (run_disk out_file st) f1 = Some [("Foo", ["a"])] →
       load_catalog P (run_disk out_file st) f2 = Some [("Foo", ["a"])] →
       ∃ st',
         yaml_to_all_tests P [p] out_file st = (Ok tt, st')
         ∧ disk st' !! out_file = Some ("Foo#a" +:+ LF +:+ "Foo#a" +:+ LF)).
Proof.
  intros Hw. split; [|split; [|split; [|split]]].
  - intros ps. rewrite resolve_flat_map.
    induction ps as [|p ps IH]; [done|]. by rewrite bind_cons, IH.
  - apply resolve_app.
  - intros ps1 ps2 cats1 cats2 H1 H2 Henc%names_encodable_records.
    destruct (valid_run P (ps1 ++ ps2) out_file st (cats1 ++ cats2))
      as (st' & Hrun & Hout & Hwr & _); [done| |done|].
    { rewrite resolve_app. by apply mapM_app_Some. }
    exists st'. split; [done|]. rewrite Hout, Hwr.
    unfold expected_output, all_records. by rewrite bind_app, flush_app.
  - intros p q f Hp Hq.
    assert (resolve P [p; q] = [f; f]) as Hres.
    { unfold resolve. simpl. by rewrite Hp, Hq. }
    split; [done|]. split; [by rewrite Hres|].
    intros cat Hf Henc%names_encodable_records.
    assert (Forall (fun chunk => encodable P chunk = true)
              (all_records [cat; cat])) as Htwice.
    { unfold all_records in *. rewrite bind_singleton in Henc.
      rewrite bind_cons, bind_singleton. by apply Forall_app. }
    destruct (valid_run P [p; q] out_file st [cat; cat])
      as (st' & Hrun & _ & Hwr & _); [done| |done|].
    { rewrite Hres. simpl. by rewrite Hf. }
    exists st'. split; [done|]. rewrite Hwr. unfold all_records.
    by rewrite bind_cons, bind_singleton.
  - intros p f1 f2 Hp H1 H2.
    destruct (valid_run P [p] out_file st
                [[("Foo", ["a"])]; [("Foo", ["a"])]])
      as (st' & Hrun & Hout & Hwr & _); [done|..].
    { unfold resolve. simpl. rewrite Hp. simpl. by rewrite H1, H2. }
    { by repeat constructor. }
    exists st'. split; [done|]. by rewrite Hout, Hwr.
Qed.

Lemma patterns_are_concatenated_witness :
  can_write Demo.platform "out.txt" = true
  ∧ resolve Demo.platform ["two/*.yaml"; "**/x.yaml"]
    = ["two/x.yaml"; "two/y.yaml"; "one/x.yaml"; "two/x.yaml"]
  ∧ resolve Demo.platform ["one/*.yaml"; "one/x.*"]
    = ["one/x.yaml"; "one/x.yaml"]
  ∧ (∃ st',
       yaml_to_all_tests Demo.platform ["one/*.yaml"; "one/x.*"] "out.txt"
         Demo.start = (Ok tt, st')
       ∧ written st'
         = ["Foo#a" +:+ LF; "Foo#b" +:+ LF; "Foo#a" +:+ LF; "Foo#b" +:+ LF])
  ∧ (∃ st',
       yaml_to_all_tests Demo.platform ["two/*.yaml"] "out.txt" Demo.start
       = (Ok tt, st')
       ∧ disk st' !! "out.txt" = Some ("Foo#a" +:+ LF +:+ "Foo#a" +:+ LF)).
Proof.
  destruct (patterns_are_concatenated Demo.platform "out.txt" Demo.start)
    as (Hres & _ & _ & Htwice & Hsame); [reflexivity|].
  destruct (Htwice "one/*.yaml" "one/x.*" "one/x.yaml" eq_refl eq_refl)
    as (Hlist & _ & Hrecords).
  split; [reflexivity|]. split; [by rewrite Hres|].
  split; [exact Hlist|]. split.
  - apply (Hrecords [("Foo", ["a"; "b"])]);
      [reflexivity | repeat constructor].
  - apply (Hsame "two/*.yaml" "two/x.yaml" "two/y.yaml"); reflexivity.
Defined.

(** C4, on the code.  Once the environment guard has passed and
    [argparse] has accepted the command line, [main] stops at line 74
    with the [AttributeError] of [args.paths], whatever the options,
    also without [--path]: [yaml_to_all_tests] is never called, the
    default pattern is never used and no file is touched. *)
Theorem main_raises_before_the_run (P : platform) environ cl st workspace :
  environ !! "GITHUB_WORKSPACE" = Some workspace →
  workspace ≠ "" →
  main P environ (Accepted cl) st = (Raise AttributeError, st)
  ∧ exit_status (main P environ (Accepted cl) st).1 = 1%Z.
Proof.
  intros Henv Hne.
  assert (main P environ (Accepted cl) st = (Raise AttributeError, st))
    as Hmain.
  { unfold main. rewrite Henv.
    destruct workspace as [|c w]; [done|].
    unfold parse_args, namespace, getattr. monad_unfold.
    rewrite lookup_insert_eq. monad_unfold.
    destruct (opt_path cl); by simplify_map_eq. }
  by rewrite Hmain.
Qed.

Lemma main_raises_before_the_run_witness :
  ({["GITHUB_WORKSPACE" := "/w"]} : gmap string string)
    !! "GITHUB_WORKSPACE" = Some "/w"
  ∧ "/w" ≠ ""
  ∧ opt_path (Cmdline [] None) = []
  ∧ main Demo.platform {["GITHUB_WORKSPACE" := "/w"]}
         (Accepted (Cmdline [] None)) Demo.start
    = (Raise AttributeError, Demo.start).
Proof.
  split; [reflexivity|]. split; [discriminate|]. split; [reflexivity|].
  apply (main_raises_before_the_run Demo.platform
           {["GITHUB_WORKSPACE" := "/w"]} (Cmdline [] None) Demo.start "/w");
    [reflexivity | discriminate].
Defined.

(** C5, as the code has it.  A resolved file that is valid YAML ends the
    run with an exception, and the process with status 1, when its
    top-level value is not a mapping, or is a mapping with a value that
    cannot be iterated (a null, a boolean or a number). *)
Theorem unusable_document_aborts (P : platform) glob_paths out_file st
    f text v :
  f ∈ resolve P glob_paths →
  run_disk out_file st !! f = Some text →
  safe_load P text = Some v →
  is_mapping v = false ∨ has_scalar_value v = true →
  ∃ e st',
    yaml_to_all_tests P glob_paths out_file st = (Raise e, st')
    ∧ exit_status (@Raise unit e) = 1%Z.
Proof.
  intros Hin Hread Hload Hshape. apply (run_raise_elem P _ _ _ f); [done|].
  by apply (unusable_file_not_ok P _ _ text v).
Qed.

Lemma unusable_document_aborts_witness :
  "int/i.yaml" ∈ resolve Demo.platform ["one/*.yaml"; "int/*.yaml"]
  ∧ run_disk "out.txt" Demo.start !! "int/i.yaml" = Some "Foo: 5"
  ∧ safe_load Demo.platform "Foo: 5" = Some (PDict [(PStr "Foo", PInt 5)])
  ∧ has_scalar_value (PDict [(PStr "Foo", PInt 5)]) = true
  ∧ ∃ e st',
      yaml_to_all_tests Demo.platform ["one/*.yaml"; "int/*.yaml"] "out.txt"
        Demo.start = (Raise e, st')
      ∧ exit_status (@Raise unit e) = 1%Z.
Proof.
  split; [vm_compute; set_solver|]. split; [reflexivity|].
  split; [reflexivity|]. split; [reflexivity|].
  apply (unusable_document_aborts Demo.platform _ _ _ "int/i.yaml" "Foo: 5"
           (PDict [(PStr "Foo", PInt 5)]));
    [vm_compute; set_solver | reflexivity | reflexivity | by right].
Defined.

(** C5, as the claim has it, fails: a file that holds the mapping
    [{"Foo": "ab"}] is valid YAML and is not a mapping from strings to
    sequences of strings, yet the run completes, here with one line for
    each character of the value. *)
Lemma string_value_is_flattened :
  resolve Demo.platform ["str/*.yaml"] = ["str/s.yaml"]
  ∧ run_disk "out.txt" Demo.start !! "str/s.yaml" = Some "Foo: ab"
  ∧ safe_load Demo.platform "Foo: ab" = Some (PDict [(PStr "Foo", PStr "ab")])
  ∧ as_catalog (PDict [(PStr "Foo", PStr "ab")]) = None
  ∧ ∃ st',
      yaml_to_all_tests Demo.platform ["str/*.yaml"] "out.txt" Demo.start
      = (Ok tt, st')
      ∧ exit_status (@Ok unit tt) = 0%Z
      ∧ disk st' !! "out.txt" = Some ("Foo#a" +:+ LF +:+ "Foo#b" +:+ LF).
Proof.
  split; [reflexivity|]. split; [reflexivity|]. split; [reflexivity|].
  split; [reflexivity|].
  eexists. split; [apply yaml_to_all_tests_ok; reflexivity|].
  split; [reflexivity|]. rewrite closed_content. reflexivity.
Qed.

(** C6.  A resolved file with malformed YAML ends the run with an
    exception, and nothing is cleaned up: a run that ends with an
    exception leaves in the output file what it has written, and when
    the loop has come through the files before the malformed one, the
    exception is the parser's and the output file holds exactly what
    those files made the loop write, whatever it held before the run. *)
Theorem malformed_yaml_aborts (P : platform) glob_paths out_file st
    pre f post text :
  resolve P glob_paths = pre ++ f :: post →
  run_disk out_file st !! f = Some text →
  safe_load P text = None →
  (∃ e st',
     yaml_to_all_tests P glob_paths out_file st = (Raise e, st')
     ∧ exit_status (@Raise unit e) = 1%Z
     ∧ (can_write P out_file = true →
        disk st' !! out_file = Some (flush (written st'))))
  ∧ (can_write P out_file = true →
     ∀ mid,
       for_each pre (write_file P) (opened P glob_paths out_file st)
       = (Ok tt, mid) →
       ∃ st',
         yaml_to_all_tests P glob_paths out_file st = (Raise YAMLError, st')
         ∧ written st' = written mid
         ∧ disk st' !! out_file = Some (flush (written mid))).
Proof.
  intros Hsplit Hread Hbad.
  assert (file_items P (run_disk out_file st) f = inl YAMLError) as Hf.
  { unfold file_items. by rewrite Hread, Hbad. }
  split.
  - destruct (run_raise_elem P glob_paths out_file st f)
      as (e & st' & Hrun & Hstatus).
    + rewrite Hsplit. set_solver.
    + unfold file_ok. by rewrite Hf.
    + exists e, st'. split; [done|]. split; [done|].
      intros Hw. by apply (run_raise_content P glob_paths _ st e).
  - intros Hw mid Hmid. by apply (run_raise_after P _ _ _ pre f post).
Qed.

Lemma malformed_yaml_aborts_witness :
  resolve Demo.platform ["one/*.yaml"; "bad/*.yaml"; "two/*.yaml"]
  = ["one/x.yaml"] ++ "bad/m.yaml" :: ["two/x.yaml"; "two/y.yaml"]
  ∧ run_disk "old.txt" Demo.start !! "bad/m.yaml" = Some "Foo: ["
  ∧ safe_load Demo.platform "Foo: [" = None
  ∧ disk Demo.start !! "old.txt" = Some "stale"
  ∧ ∃ st',
      yaml_to_all_tests Demo.platform
        ["one/*.yaml"; "bad/*.yaml"; "two/*.yaml"] "old.txt" Demo.start
      = (Raise YAMLError, st')
      ∧ written st' = ["Foo#a" +:+ LF; "Foo#b" +:+ LF]
      ∧ disk st' !! "old.txt" = Some ("Foo#a" +:+ LF +:+ "Foo#b" +:+ LF).
Proof.
  split; [reflexivity|]. split; [reflexivity|]. split; [reflexivity|].
  split; [reflexivity|].
  destruct (malformed_yaml_aborts Demo.platform
              ["one/*.yaml"; "bad/*.yaml"; "two/*.yaml"] "old.txt" Demo.start
              ["one/x.yaml"] "bad/m.yaml" ["two/x.yaml"; "two/y.yaml"]
              "Foo: [") as [_ Hfirst]; [reflexivity..|].
  destruct (Hfirst eq_refl _ eq_refl) as (st' & Hrun & Hwritten & Hout).
  exists st'. split; [exact Hrun|]. split; [exact Hwritten | exact Hout].
Defined.

(** C7, as the code has it.  In a run of [yaml_to_all_tests] that
    completes, at the head of each of the three loops, the class counter
    is the number of (file, class key) occurrences the loops have come
    to, a class name counted once for every file it is in, and the
    method counter is the number of records written; that is the number
    of lines of the text written so far when no key and no method of the
    resolved files is written with a line break.  At the end the same
    holds, and the two counters are the totals that the last debug line
    reports. *)
Theorem counters_follow_the_run (P : platform) glob_paths out_file st st' :
  yaml_to_all_tests P glob_paths out_file st = (Ok tt, st') →
  (∀ pt,
     on_run P (run_disk out_file st) (resolve P glob_paths) pt →
     ∃ mid st_end,
       before P pt (opened P glob_paths out_file st) = (Ok tt, mid)
       ∧ after P pt mid = (Ok tt, st_end)
       ∧ st' = reported out_file (closed out_file st_end)
       ∧ class_count mid = classes_seen P (run_disk out_file st) pt
       ∧ method_count mid = length (written mid)
       ∧ (Forall (plain_file P (run_disk out_file st))
                 (resolve P glob_paths) →
          newlines (flush (written mid)) = method_count mid))
  ∧ class_count st'
    = files_classes P (run_disk out_file st) (resolve P glob_paths)
  ∧ method_count st' = length (written st')
  ∧ (Forall (plain_file P (run_disk out_file st)) (resolve P glob_paths) →
     newlines (flush (written st')) = method_count st')
  ∧ disk st' !! out_file = Some (flush (written st'))
  ∧ last (console st')
    = Some (LogWrote (method_count st') (class_count st') out_file).
Proof.
  intros Hrun.
  destruct (yaml_to_all_tests_ok_inv P _ _ _ _ Hrun) as [Hw Hok].
  split.
  - intros pt Hpt.
    destruct (before_counters P pt (resolve P glob_paths)
                (opened P glob_paths out_file st))
      as (ls & Hbefore & Hplain); [done..|].
    rewrite yaml_to_all_tests_unfold in Hrun by done.
    rewrite (run_through_point P pt) in Hrun by done.
    unfold bind in Hrun. rewrite Hbefore in Hrun.
    destruct (after P pt _) as [[[]|e] st_end] eqn:Hafter; [|done].
    assert (st' = reported out_file (closed out_file st_end)) as ->
      by congruence.
    eexists _, st_end. split; [exact Hbefore|]. split; [exact Hafter|].
    split; [done|]. split; [done|]. split; [done|].
    intros Hfiles. simpl. by apply newlines_flush, Hplain.
  - rewrite yaml_to_all_tests_ok in Hrun by done.
    assert (st' = reported out_file (closed out_file
              (advance
                 (files_classes P (<[out_file:=""]> (disk st))
                    (resolve P glob_paths))
                 (length (files_lines P (<[out_file:=""]> (disk st))
                            (resolve P glob_paths)))
                 (files_lines P (<[out_file:=""]> (disk st))
                    (resolve P glob_paths))
                 (opened P glob_paths out_file st)))) as ->
      by congruence.
    simpl. rewrite lookup_insert_eq, last_snoc.
    split; [done|]. split; [done|]. split; [|done].
    intros Hfiles. by apply newlines_flush, plain_files_lines.
Qed.

Lemma counters_follow_the_run_witness :
  yaml_to_all_tests Demo.platform Demo.two_patterns "out.txt" Demo.start
  = (Ok tt, (yaml_to_all_tests Demo.platform Demo.two_patterns "out.txt"
               Demo.start).2)
  ∧ (∃ mid,
       before Demo.platform Demo.second_file_done
         (opened Demo.platform Demo.two_patterns "out.txt" Demo.start)
       = (Ok tt, mid)
       ∧ class_count mid = 2
       ∧ method_count mid = 3
       ∧ length (written mid) = 3
       ∧ newlines (flush (written mid)) = 3)
  ∧ class_count (yaml_to_all_tests Demo.platform Demo.two_patterns
                   "out.txt" Demo.start).2 = 3
  ∧ method_count (yaml_to_all_tests Demo.platform Demo.two_patterns
                    "out.txt" Demo.start).2 = 4.
Proof.
  set (run := yaml_to_all_tests Demo.platform Demo.two_patterns "out.txt"
                Demo.start).
  assert (run = (Ok tt, run.2)) as Hrun by (vm_compute; reflexivity).
  destruct (counters_follow_the_run Demo.platform Demo.two_patterns
              "out.txt" Demo.start run.2 Hrun)
    as (Hpoints & Hcls & Hmeth & _).
  destruct (Hpoints Demo.second_file_done)
    as (mid & st_end & Hbefore & _ & _ & Hmid_cls & Hmid_meth & Hmid_lines).
  { repeat split; vm_compute; reflexivity. }
  assert (Forall (plain_file Demo.platform (run_disk "out.txt" Demo.start))
                 (resolve Demo.platform Demo.two_patterns)) as Hplain.
  { change (resolve Demo.platform Demo.two_patterns)
      with ["one/x.yaml"; "two/x.yaml"; "two/y.yaml"].
    repeat apply Forall_cons_2; try apply Forall_nil_2;
      intros items Hitems; vm_compute in Hitems;
      injection Hitems as <-; repeat constructor. }
  split; [exact Hrun|]. split.
  - exists mid. split; [exact Hbefore|].
    assert (method_count mid = 3) as Hthree.
    { replace mid with (before Demo.platform Demo.second_file_done
        (opened Demo.platform Demo.two_patterns "out.txt" Demo.start)).2
        by (by rewrite Hbefore).
      vm_compute; reflexivity. }
    split; [rewrite Hmid_cls; vm_compute; reflexivity|].
    split; [exact Hthree|]. split; [by rewrite <- Hmid_meth|].
    by rewrite (Hmid_lines Hplain).
  - split; [rewrite Hcls; vm_compute; reflexivity|].
    rewrite Hmeth. vm_compute; reflexivity.
Defined.

(** C7, as the claim has it, fails in two ways.  The run over the file
    [Foo: ["a\nb"]] completes with a method counter of one and two
    lines in the output file.  And in the run over [one/*.yaml], after
    line 48 has counted the first method and before line 49 has written
    it, the method counter is one and nothing is written. *)
Lemma counter_is_not_the_line_count :
  (∃ st',
     yaml_to_all_tests Demo.platform ["brk/*.yaml"] "out.txt" Demo.start
     = (Ok tt, st')
     ∧ method_count st' = 1
     ∧ disk st' !! "out.txt" = Some (flush (written st'))
     ∧ newlines (flush (written st')) = 2)
  ∧ (∃ mid st_end,
       (modify (fun st => set_class_count (class_count st + 1) st);;
        modify (fun st => set_method_count (method_count st + 1) st))
         (opened Demo.platform ["one/*.yaml"] "out.txt" Demo.start)
       = (Ok tt, mid)
       ∧ (fp_write Demo.platform (line Demo.platform (PStr "Foo") (PStr "a"));;
          write_methods Demo.platform (PStr "Foo") [PStr "b"]) mid
         = (Ok tt, st_end)
       ∧ yaml_to_all_tests Demo.platform ["one/*.yaml"] "out.txt" Demo.start
         = (Ok tt, reported "out.txt" (closed "out.txt" st_end))
       ∧ method_count mid = 1
       ∧ written mid = []
       ∧ newlines (flush (written mid)) = 0).
Proof.
  split.
  - eexists. split; [vm_compute; reflexivity|].
    split; [reflexivity|]. split; vm_compute; reflexivity.
  - eexists _, _. split; [reflexivity|].
    split; [vm_compute; reflexivity|].
    split; [vm_compute; reflexivity|]. split; [reflexivity|].
    split; reflexivity.
Qed.

(** C8.  When the patterns resolve to no file at all,
    [yaml_to_all_tests] completes and the output file exists and is
    empty, whatever it held before. *)
Theorem no_files_empty_output (P : platform) glob_paths out_file st :
  can_write P out_file = true →
  resolve P glob_paths = [] →
  ∃ st',
    yaml_to_all_tests P glob_paths out_file st = (Ok tt, st')
    ∧ disk st' !! out_file = Some ""
    ∧ written st' = []
    ∧ last (console st') = Some (LogWrote 0 0 out_file).
Proof.
  intros Hw Hnone.
  destruct (valid_run P glob_paths out_file st [])
    as (st' & Hrun & Hout & Hwr & _ & _ & Hlog);
    [done | by rewrite Hnone | constructor |].
  exists st'. rewrite Hout, Hwr. done.
Qed.

Lemma no_files_empty_output_witness :
  can_write Demo.platform "old.txt" = true
  ∧ resolve Demo.platform ["none/*.yaml"; "nothing/**/*.yaml"] = []
  ∧ disk Demo.start !! "old.txt" = Some "stale"
  ∧ ∃ st',
      yaml_to_all_tests Demo.platform ["none/*.yaml"; "nothing/**/*.yaml"]
        "old.txt" Demo.start = (Ok tt, st')
      ∧ disk st' !! "old.txt" = Some "".
Proof.
  split; [reflexivity|]. split; [reflexivity|]. split; [reflexivity|].
  destruct (no_files_empty_output Demo.platform
              ["none/*.yaml"; "nothing/**/*.yaml"] "old.txt" Demo.start)
    as (st' & Hrun & Hout & _); [reflexivity..|].
  exists st'. by split.
Defined.

(** C9.  A class key whose method sequence is empty adds no line and
    still adds one to the class counter; a run over catalogs that hold
    only empty sequences, with at least one class key, leaves an empty
    output file and reports a class count that is not zero. *)
Theorem empty_sequence_counts_class (P : platform) glob_paths out_file st
    cats :
  can_write P out_file = true →
  mapM (load_catalog P (run_disk out_file st)) (resolve P glob_paths)
  = Some cats →
  Forall (Forall (fun entry : string * list string => entry.2 = [])) cats →
  0 < total_classes cats →
  (∀ clazz st0,
     write_class P (clazz, PList []) st0
     = (Ok tt, set_class_count (class_count st0 + 1) st0))
  ∧ ∃ st',
      yaml_to_all_tests P glob_paths out_file st = (Ok tt, st')
      ∧ disk st' !! out_file = Some ""
      ∧ class_count st' = total_classes cats
      ∧ last (console st') = Some (LogWrote 0 (total_classes cats) out_file)
      ∧ total_classes cats ≠ 0.
Proof.
  intros Hw Hcats Hempty Hsome. split.
  { intros clazz st0. rewrite (write_class_run P _ []) by done.
    f_equal. destruct st0; unfold advance, set_class_count; simpl.
    by rewrite app_nil_r, Nat.add_0_r. }
  pose proof (all_records_empty cats Hempty) as Hnone.
  assert (total_methods cats = 0) as Hzero.
  { by rewrite <- length_all_records, Hnone. }
  destruct (valid_run P glob_paths out_file st cats)
    as (st' & Hrun & Hout & Hwr & Hcls & _ & Hlog); [done..| |].
  { rewrite Hnone. constructor. }
  exists st'. rewrite Hout, Hwr, Hnone, Hlog, Hzero. repeat split; try done.
  lia.
Qed.

Lemma empty_sequence_counts_class_witness :
  can_write Demo.platform "out.txt" = true
  ∧ mapM (load_catalog Demo.platform (run_disk "out.txt" Demo.start))
         (resolve Demo.platform ["emp/*.yaml"])
    = Some [[("Foo", []); ("Bar", [])]]
  ∧ ∃ st',
      yaml_to_all_tests Demo.platform ["emp/*.yaml"] "out.txt" Demo.start
      = (Ok tt, st')
      ∧ disk st' !! "out.txt" = Some ""
      ∧ last (console st') = Some (LogWrote 0 2 "out.txt").
Proof.
  split; [reflexivity|]. split; [vm_compute; reflexivity|].
  destruct (empty_sequence_counts_class Demo.platform ["emp/*.yaml"]
              "out.txt" Demo.start [[("Foo", []); ("Bar", [])]])
    as (_ & st' & Hrun & Hout & _ & Hlog & _);
    [reflexivity | vm_compute; reflexivity | repeat constructor
    | vm_compute; lia |].
  exists st'. by repeat split.
Defined.

(** C10.  A resolved file that is an empty or all-comment document
    parses to [None]; the run then ends with an exception instead of
    taking the file for a catalog without entries.  When the loop has
    come through the files before it, the exception is the
    [AttributeError] of [tests.items()], and the output file holds what
    those files made the loop write. *)
Theorem null_document_aborts (P : platform) glob_paths out_file st
    pre f post text :
  resolve P glob_paths = pre ++ f :: post →
  run_disk out_file st !! f = Some text →
  safe_load P text = Some PNone →
  (∃ e st',
     yaml_to_all_tests P glob_paths out_file st = (Raise e, st')
     ∧ exit_status (@Raise unit e) = 1%Z)
  ∧ (can_write P out_file = true →
     ∀ mid,
       for_each pre (write_file P) (opened P glob_paths out_file st)
       = (Ok tt, mid) →
       ∃ st',
         yaml_to_all_tests P glob_paths out_file st
         = (Raise AttributeError, st')
         ∧ written st' = written mid
         ∧ disk st' !! out_file = Some (flush (written mid))).
Proof.
  intros Hsplit Hread Hnull.
  assert (file_items P (run_disk out_file st) f = inl AttributeError) as Hf.
  { unfold file_items. by rewrite Hread, Hnull. }
  split.
  - apply (run_raise_elem P _ _ _ f).
    + rewrite Hsplit. set_solver.
    + unfold file_ok. by rewrite Hf.
  - intros Hw mid Hmid. by apply (run_raise_after P _ _ _ pre f post).
Qed.

Lemma null_document_aborts_witness :
  resolve Demo.platform ["one/*.yaml"; "nul/*.yaml"; "two/*.yaml"]
  = ["one/x.yaml"] ++ "nul/n.yaml" :: ["two/x.yaml"; "two/y.yaml"]
  ∧ run_disk "out.txt" Demo.start !! "nul/n.yaml" = Some "# nothing"
  ∧ safe_load Demo.platform "# nothing" = Some PNone
  ∧ ∃ st',
      yaml_to_all_tests Demo.platform
        ["one/*.yaml"; "nul/*.yaml"; "two/*.yaml"] "out.txt" Demo.start
      = (Raise AttributeError, st')
      ∧ written st' = ["Foo#a" +:+ LF; "Foo#b" +:+ LF]
      ∧ disk st' !! "out.txt" = Some ("Foo#a" +:+ LF +:+ "Foo#b" +:+ LF).
Proof.
  split; [reflexivity|]. split; [reflexivity|]. split; [reflexivity|].
  destruct (null_document_aborts Demo.platform
              ["one/*.yaml"; "nul/*.yaml"; "two/*.yaml"] "out.txt" Demo.start
              ["one/x.yaml"] "nul/n.yaml" ["two/x.yaml"; "two/y.yaml"]
              "# nothing") as [_ Hfirst]; [reflexivity..|].
  destruct (Hfirst eq_refl _ eq_refl) as (st' & Hrun & Hwritten & Hout).
  exists st'. split; [exact Hrun|]. split; [exact Hwritten | exact Hout].
Defined.

(** * Further properties of the script *)

(** ** The loops do not look at the console *)

Lemma blind_bind {A B} (m : M A) (k : A → M B) :
  console_blind m → (∀ a, console_blind (k a)) → console_blind (bind m k).
Proof.
  intros Hm Hk c st. unfold bind. rewrite Hm.
  destruct (m st) as [[a|e] st1]; simpl; [apply Hk | done].
Qed.

Lemma blind_for_each {A} (l : list A) (body : A → M unit) :
  (∀ x, console_blind (body x)) → console_blind (for_each l body).
Proof.
  intros Hbody. induction l as [|x l IH]; [done|].
  cbn [for_each]. apply blind_bind; [apply Hbody | by intros _].
Qed.

Section Blind.
Variable P : platform.

Lemma blind_write_methods clazz methods :
  console_blind (write_methods P clazz methods).
Proof.
  apply blind_for_each. intros method. apply blind_bind; [done|].
  intros _ c st. unfold fp_write.
  by destruct (encodable P (line P clazz method)).
Qed.

Lemma blind_write_class item : console_blind (write_class P item).
Proof.
  unfold write_class. apply blind_bind; [done|]. intros _.
  apply blind_bind; [by destruct (py_iter item.2)|].
  intros methods. apply blind_write_methods.
Qed.

Lemma blind_write_file f : console_blind (write_file P f).
Proof.
  intros c st. rewrite !write_file_unfold. simpl.
  destruct (file_items P (disk st) f) as [e|items]; [done|].
  apply blind_for_each, blind_write_class.
Qed.

Lemma blind_write_files fs : console_blind (for_each fs (write_file P)).
Proof. apply blind_for_each, blind_write_file. Qed.

End Blind.

(** ** Usable files, whole lines, the guard *)

Section Outcome.
Variable P : platform.

(** The first line that cannot be encoded stops the loop over the items
    of a file. *)
Lemma write_class_stop item mpre m mpost st :
  py_iter item.2 = inr (mpre ++ m :: mpost) →
  forallb (encodable P) (line P item.1 <$> mpre) = true →
  encodable P (line P item.1 m) = false →
  write_class P item st
  = (Raise UnicodeEncodeError,
     advance 1 (length mpre + 1) (line P item.1 <$> mpre) st).
Proof.
  intros Hit Hpre Hm. unfold write_class, bind, modify. rewrite Hit. simpl.
  rewrite write_methods_raise by done. f_equal.
  unfold advance, set_class_count; simpl. f_equal; lia.
Qed.

Lemma write_classes_stop ipre item ipost mpre m mpost st :
  items_ok P ipre = true →
  py_iter item.2 = inr (mpre ++ m :: mpost) →
  forallb (encodable P) (line P item.1 <$> mpre) = true →
  encodable P (line P item.1 m) = false →
  for_each (ipre ++ item :: ipost) (write_class P) st
  = (Raise UnicodeEncodeError,
     advance (length ipre + 1)
             (length (ipre ≫= item_lines P) + (length mpre + 1))
             ((ipre ≫= item_lines P) ++ (line P item.1 <$> mpre)) st).
Proof.
  intros Hipre Hit Hpre Hm. rewrite for_each_app. unfold bind at 1.
  rewrite write_classes_run by done. cbn [for_each]. unfold bind.
  rewrite (write_class_stop item mpre m mpost) by done.
  by rewrite advance_advance.
Qed.

Lemma file_ok_usable d f : file_ok P d f = true ↔ usable P d f.
Proof.
  assert (∀ item : pyval * pyval,
            item_ok P item = true
            ↔ iterable item.2 = true
              ∧ Forall (fun chunk => encodable P chunk = true)
                       (item_lines P item)) as Hitem.
  { intros item. unfold item_ok. rewrite andb_true_iff, forallb_forall.
    rewrite Forall_forall. split; intros [Hit Henc]; (split; [done|]).
    - intros chunk Hin. apply Henc. by apply list_elem_of_In.
    - intros chunk Hin. apply Henc. by apply list_elem_of_In. }
  unfold file_ok, usable, file_items. split.
  - destruct (d !! f) as [text|]; [|done].
    destruct (safe_load P text) as [v|] eqn:Hload; [|done].
    destruct v as [| | | | | |items]; try done. simpl. intros Hok.
    exists text, items. repeat split; [done|].
    unfold items_ok in Hok. rewrite forallb_forall in Hok.
    apply Forall_forall. intros item Hin. apply Hitem, Hok.
    by apply list_elem_of_In.
  - intros (text & items & -> & -> & Hok). simpl.
    unfold items_ok. apply forallb_forall. intros item Hin.
    rewrite Forall_forall in Hok. apply Hitem, Hok.
    by apply list_elem_of_In.
Qed.

Lemma flush_lines_end ls :
  Forall (is_line P) ls →
  flush ls = "" ∨ ∃ body, flush ls = body +:+ LF.
Proof.
  destruct ls as [|chunk ls _] using rev_ind; [by left|].
  intros [_ Hlast]%Forall_app. right.
  apply Forall_inv in Hlast as (clazz & method & ->).
  exists (flush ls +:+ py_str P clazz +:+ "#" +:+ py_str P method).
  rewrite flush_app. unfold line.
  change (flush [?x]) with (x +:+ "").
  by rewrite append_nil_r, !append_assoc.
Qed.

Lemma resolve_ext glob' glob_paths :
  (∀ p, p ∈ glob_paths → glob' p = glob P p) →
  resolve (later P glob') glob_paths = resolve P glob_paths.
Proof.
  intros Hsame. rewrite !resolve_flat_map. simpl.
  induction glob_paths as [|p ps IH]; [done|].
  rewrite !bind_cons, Hsame, IH; [done| |].
  - intros q Hq. apply Hsame. by right.
  - by left.
Qed.

(** The guard has passed and the command line is accepted: line 74 ends
    [main]. *)
Lemma main_after_guard environ cl st c w :
  environ !! "GITHUB_WORKSPACE" = Some (String c w) →
  main P environ (Accepted cl) st = (Raise AttributeError, st).
Proof.
  intros Henv. unfold main. rewrite Henv.
  unfold parse_args, namespace, getattr. monad_unfold.
  rewrite lookup_insert_eq. monad_unfold.
  destruct (opt_path cl); by simplify_map_eq.
Qed.

(** The guard has passed and [argparse] exits: line 71 ends [main]. *)
Lemma main_parser_exit environ code st c w :
  environ !! "GITHUB_WORKSPACE" = Some (String c w) →
  main P environ (Exits code) st
  = (Raise (SystemExit code),
     set_console (console st ++ [ParserMessage]) st).
Proof. intros Henv. unfold main. by rewrite Henv. Qed.

(** The guard has not passed. *)
Lemma guard_message environ argv st :
  environ !! "GITHUB_WORKSPACE" = None
  ∨ environ !! "GITHUB_WORKSPACE" = Some "" →
  main P environ argv st
  = (Raise (SystemExit 1),
     set_console
       (console st
        ++ [Printed "This script is intended to by run by GitHub Actions."])
       st).
Proof. intros Henv. unfold main. by destruct Henv as [-> | ->]. Qed.

End Outcome.

(** ** The command line *)

(** X1.  Without [GITHUB_WORKSPACE] in the environment, or with an empty
    value, [main] prints its message and exits with status 1 before it
    looks at the command line: nothing else is printed or logged and no
    file is touched. *)
Theorem guard_exits_first (P : platform) environ argv st :
  environ !! "GITHUB_WORKSPACE" = None
  ∨ environ !! "GITHUB_WORKSPACE" = Some "" →
  main P environ argv st
  = (Raise (SystemExit 1),
     set_console
       (console st
        ++ [Printed "This script is intended to by run by GitHub Actions."])
       st)
  ∧ exit_status (main P environ argv st).1 = 1%Z.
Proof.
  intros Henv. pose proof (guard_message P environ argv st Henv) as Hmain.
  by rewrite Hmain.
Qed.

Lemma guard_exits_first_witness :
  (∅ : gmap string string) !! "GITHUB_WORKSPACE" = None
  ∧ exit_status
      (main Demo.platform ∅
         (Accepted (Cmdline ["one/*.yaml"] (Some "out.txt")))
         Demo.start).1 = 1%Z
  ∧ disk (main Demo.platform ∅
            (Accepted (Cmdline ["one/*.yaml"] (Some "out.txt")))
            Demo.start).2 = Demo.files.
Proof.
  split; [reflexivity|].
  destruct (guard_exits_first Demo.platform ∅
              (Accepted (Cmdline ["one/*.yaml"] (Some "out.txt")))
              Demo.start)
    as [Hmain Hstatus]; [by left|].
  split; [exact Hstatus|]. by rewrite Hmain.
Defined.

(** X2.  [main] never returns normally and never gets to
    [yaml_to_all_tests]: it leaves every file and the written output as
    they were, and it ends in one of three ways.  The guard exits with
    status 1; or the guard passes and [argparse] exits by itself, with
    its own status; or the guard passes, the command line is accepted
    and line 74 raises [AttributeError], status 1. *)
Theorem main_never_completes (P : platform) environ argv st :
  ∃ e st',
    main P environ argv st = (Raise e, st')
    ∧ disk st' = disk st
    ∧ written st' = written st
    ∧ ((e = SystemExit 1
        ∧ (environ !! "GITHUB_WORKSPACE" = None
           ∨ environ !! "GITHUB_WORKSPACE" = Some ""))
       ∨ (∃ code c w,
            environ !! "GITHUB_WORKSPACE" = Some (String c w)
            ∧ argv = Exits code ∧ e = SystemExit code
            ∧ exit_status (@Raise unit e) = code)
       ∨ (∃ cl c w,
            environ !! "GITHUB_WORKSPACE" = Some (String c w)
            ∧ argv = Accepted cl ∧ e = AttributeError
            ∧ exit_status (@Raise unit e) = 1%Z)).
Proof.
  destruct (environ !! "GITHUB_WORKSPACE") as [[|c w]|] eqn:Henv.
  - rewrite (guard_message P environ argv st) by by right.
    eexists _, _. split; [done|]. split; [done|]. split; [done|].
    left. split; [done | by right].
  - destruct argv as [cl|code].
    + exists AttributeError, st.
      split; [by apply (main_after_guard P environ cl st c w)|].
      split; [done|]. split; [done|]. right. right. by exists cl, c, w.
    + rewrite (main_parser_exit P environ code st c w) by done.
      eexists _, _. split; [done|]. split; [done|]. split; [done|].
      right. left. by exists code, c, w.
  - rewrite (guard_message P environ argv st) by by left.
    eexists _, _. split; [done|]. split; [done|]. split; [done|].
    left. split; [done | by left].
Qed.

(** ** Runs of [yaml_to_all_tests] *)



(** X4.  A resolved path that cannot be opened for reading ends the run
    with an exception and exit status 1.  When the loop has come through
    the files before it, the exception is [OSError] and the output file
    holds what those files made the loop write. *)
Theorem unreadable_file_aborts (P : platform) glob_paths out_file st
    pre f post :
  resolve P glob_paths = pre ++ f :: post →
  run_disk out_file st !! f = None →
  (∃ e st',
     yaml_to_all_tests P glob_paths out_file st = (Raise e, st')
     ∧ exit_status (@Raise unit e) = 1%Z)
  ∧ (can_write P out_file = true →
     ∀ mid,
       for_each pre (write_file P) (opened P glob_paths out_file st)
       = (Ok tt, mid) →
       ∃ st',
         yaml_to_all_tests P glob_paths out_file st = (Raise OSError, st')
         ∧ written st' = written mid
         ∧ disk st' !! out_file = Some (flush (written mid))).
Proof.
  intros Hsplit Hread.
  assert (file_items P (run_disk out_file st) f = inl OSError) as Hf.
  { unfold file_items. by rewrite Hread. }
  split.
  - apply (run_raise_elem P _ _ _ f).
    + rewrite Hsplit. set_solver.
    + unfold file_ok. by rewrite Hf.
  - intros Hw mid Hmid. by apply (run_raise_after P _ _ _ pre f post).
Qed.

Lemma unreadable_file_aborts_witness :
  resolve Cases.platform ["one/*.yaml"; "gone/*.yaml"; "two/*.yaml"]
  = ["one/x.yaml"] ++ "gone/g.yaml" :: ["two/x.yaml"; "two/y.yaml"]
  ∧ run_disk "out.txt" Cases.start !! "gone/g.yaml" = None
  ∧ ∃ st',
      yaml_to_all_tests Cases.platform
        ["one/*.yaml"; "gone/*.yaml"; "two/*.yaml"] "out.txt" Cases.start
      = (Raise OSError, st')
      ∧ written st' = ["Foo#a" +:+ LF; "Foo#b" +:+ LF]
      ∧ disk st' !! "out.txt" = Some ("Foo#a" +:+ LF +:+ "Foo#b" +:+ LF).
Proof.
  split; [reflexivity|]. split; [reflexivity|].
  destruct (unreadable_file_aborts Cases.platform
              ["one/*.yaml"; "gone/*.yaml"; "two/*.yaml"] "out.txt"
              Cases.start ["one/x.yaml"] "gone/g.yaml"
              ["two/x.yaml"; "two/y.yaml"]) as [_ Hfirst]; [reflexivity..|].
  destruct (Hfirst eq_refl _ eq_refl) as (st' & Hrun & Hwritten & Hout).
  exists st'. split; [exact Hrun|]. split; [exact Hwritten | exact Hout].
Defined.

(** X5.  Whatever the outcome, a run changes no file but the output
    file: every other path holds after the run what it held before. *)
Theorem only_the_output_file_changes (P : platform) glob_paths out_file st
    f :
  f ≠ out_file →
  disk (yaml_to_all_tests P glob_paths out_file st).2 !! f = disk st !! f.
Proof.
  intros Hne. destruct (can_write P out_file) eqn:Hw.
  - rewrite yaml_to_all_tests_unfold by done.
    pose proof (write_files_disk P (resolve P glob_paths)
                  (opened P glob_paths out_file st)) as Hd.
    destruct (for_each _ _ _) as [[[]|e] st2]; simpl in *;
      rewrite lookup_insert_ne, Hd, lookup_insert_ne by done; done.
  - by rewrite (unwritable_output_state P glob_paths out_file st Hw).
Qed.

Lemma only_the_output_file_changes_witness :
  "one/x.yaml" ≠ "out.txt"
  ∧ "old.txt" ≠ "out.txt"
  ∧ disk (yaml_to_all_tests Demo.platform Demo.two_patterns "out.txt"
            Demo.start).2 !! "one/x.yaml" = Some "Foo: [a, b]"
  ∧ disk (yaml_to_all_tests Demo.platform ["bad/*.yaml"] "out.txt"
            Demo.start).2 !! "old.txt" = Some "stale".
Proof.
  split; [discriminate|]. split; [discriminate|]. split.
  - rewrite (only_the_output_file_changes Demo.platform Demo.two_patterns
               "out.txt" Demo.start "one/x.yaml"); [reflexivity|discriminate].
  - rewrite (only_the_output_file_changes Demo.platform ["bad/*.yaml"]
               "out.txt" Demo.start "old.txt"); [reflexivity|discriminate].
Defined.

(** X6.  A run completes exactly when the output file can be opened and
    every resolved path, as the loop reads it, is a readable file that
    parses to a mapping all of whose values can be iterated and all of
    whose lines can be encoded for the output file. *)
Theorem run_completes_iff (P : platform) glob_paths out_file st :
  (yaml_to_all_tests P glob_paths out_file st).1 = Ok tt
  ↔ can_write P out_file = true
    ∧ Forall (usable P (run_disk out_file st)) (resolve P glob_paths).
Proof.
  assert (files_ok P (run_disk out_file st) (resolve P glob_paths) = true
          ↔ Forall (usable P (run_disk out_file st)) (resolve P glob_paths))
    as Hfiles.
  { unfold files_ok. rewrite forallb_forall, Forall_forall.
    split; intros Hall f Hin.
    - apply file_ok_usable, Hall. by apply list_elem_of_In.
    - apply file_ok_usable, Hall. by apply list_elem_of_In. }
  rewrite <- Hfiles. split.
  - destruct (yaml_to_all_tests P glob_paths out_file st) as [r st'] eqn:Hrun.
    simpl. intros ->.
    by apply (yaml_to_all_tests_ok_inv P glob_paths out_file st st').
  - intros [Hw Hok]. by rewrite yaml_to_all_tests_ok.
Qed.

(** X7.  A value that cannot be iterated stops the run in the middle of
    its file with [TypeError], when the loop has come through the files
    before and the keys before (their values can be iterated, their
    lines encoded): the lines of the earlier keys of that file stay
    written after those of the earlier files, the class counter has
    counted the key with the bad value, and the output file holds all
    that was written. *)
Theorem bad_value_keeps_earlier_lines (P : platform) glob_paths out_file st
    pre f post text ipre key value ipost mid :
  can_write P out_file = true →
  resolve P glob_paths = pre ++ f :: post →
  for_each pre (write_file P) (opened P glob_paths out_file st)
  = (Ok tt, mid) →
  run_disk out_file st !! f = Some text →
  safe_load P text = Some (PDict (ipre ++ (key, value) :: ipost)) →
  items_ok P ipre = true →
  iterable value = false →
  ∃ st',
    yaml_to_all_tests P glob_paths out_file st = (Raise TypeError, st')
    ∧ written st' = written mid ++ (ipre ≫= item_lines P)
    ∧ class_count st' = class_count mid + length ipre + 1
    ∧ method_count st' = method_count mid + length (ipre ≫= item_lines P)
    ∧ disk st' !! out_file = Some (flush (written st')).
Proof.
  intros Hw Hsplit Hpre Hread Hload Hipre Hbad.
  assert (py_iter (key, value).2 = inl TypeError) as Hiter.
  { unfold iterable in Hbad. simpl.
    destruct (py_iter value) as [e|] eqn:Hit; [|done].
    by rewrite (py_iter_error value e). }
  rewrite yaml_to_all_tests_unfold, Hsplit, for_each_app by done.
  unfold bind at 1. rewrite Hpre. cbn [for_each]. unfold bind.
  pose proof (write_files_disk P pre (opened P glob_paths out_file st))
    as Hd.
  rewrite Hpre in Hd. simpl in Hd.
  rewrite write_file_unfold. unfold file_items. rewrite Hd.
  unfold run_disk in Hread. rewrite Hread, Hload. simpl.
  rewrite (write_classes_raise P ipre (key, value) ipost TypeError)
    by done.
  eexists. split; [done|]. simpl. rewrite lookup_insert_eq.
  repeat split; lia.
Qed.

Lemma bad_value_keeps_earlier_lines_witness :
  can_write Cases.platform "out.txt" = true
  ∧ resolve Cases.platform ["one/*.yaml"; "mix/*.yaml"; "two/*.yaml"]
    = ["one/x.yaml"] ++ "mix/m.yaml" :: ["two/x.yaml"; "two/y.yaml"]
  ∧ run_disk "out.txt" Cases.start !! "mix/m.yaml"
    = Some Cases.good_then_bad
  ∧ safe_load Cases.platform Cases.good_then_bad
    = Some (PDict ([(PStr "Foo", PList [PStr "a"])]
                   ++ (PStr "Bar", PInt 5) :: []))
  ∧ ∃ st',
      yaml_to_all_tests Cases.platform
        ["one/*.yaml"; "mix/*.yaml"; "two/*.yaml"] "out.txt" Cases.start
      = (Raise TypeError, st')
      ∧ written st' = ["Foo#a" +:+ LF; "Foo#b" +:+ LF; "Foo#a" +:+ LF]
      ∧ class_count st' = 3
      ∧ method_count st' = 3.
Proof.
  split; [reflexivity|]. split; [reflexivity|]. split; [reflexivity|].
  split; [reflexivity|].
  destruct (bad_value_keeps_earlier_lines Cases.platform
              ["one/*.yaml"; "mix/*.yaml"; "two/*.yaml"] "out.txt"
              Cases.start ["one/x.yaml"] "mix/m.yaml"
              ["two/x.yaml"; "two/y.yaml"] Cases.good_then_bad
              [(PStr "Foo", PList [PStr "a"])] (PStr "Bar") (PInt 5) []
              (for_each ["one/x.yaml"] (write_file Cases.platform)
                 (opened Cases.platform
                    ["one/*.yaml"; "mix/*.yaml"; "two/*.yaml"] "out.txt"
                    Cases.start)).2)
    as (st' & Hrun & Hwritten & Hcls & Hmeth & _);
    [reflexivity | reflexivity | vm_compute; reflexivity | reflexivity
    | reflexivity | reflexivity | reflexivity |].
  exists st'. split; [exact Hrun|].
  split; [rewrite Hwritten; vm_compute; reflexivity|].
  split; [rewrite Hcls; vm_compute; reflexivity|].
  rewrite Hmeth; vm_compute; reflexivity.
Defined.

(** X8.  Once the output file is open, whatever the outcome, the output
    file holds exactly what was written; every written chunk is a whole
    [str(class)#str(method)] with its newline, so the file is empty or
    ends with a newline; and the method counter is the number of chunks
    written, except after the [UnicodeEncodeError] of [fp.write], where
    it is one more: line 48 has counted the method that line 49 could
    not write. *)
Theorem output_is_whole_lines (P : platform) glob_paths out_file st r st' :
  can_write P out_file = true →
  yaml_to_all_tests P glob_paths out_file st = (r, st') →
  disk st' !! out_file = Some (flush (written st'))
  ∧ Forall (is_line P) (written st')
  ∧ method_count st' = length (written st') + ahead r
  ∧ (flush (written st') = "" ∨ ∃ body, flush (written st') = body +:+ LF).
Proof.
  intros Hw. rewrite yaml_to_all_tests_unfold by done.
  destruct (write_files_state P (resolve P glob_paths)
              (opened P glob_paths out_file st)) as (c & ls & Hst & Hls).
  destruct (for_each _ _ _) as [[[]|e] st2]; simpl in Hst; subst st2;
    intros [= <- <-]; simpl; rewrite lookup_insert_eq;
    (split; [done|]); (split; [done|]); (split; [done|]);
    by apply (flush_lines_end P).
Qed.

Lemma output_is_whole_lines_witness :
  can_write Cases.platform "out.txt" = true
  ∧ ∃ st',
      yaml_to_all_tests Cases.platform ["one/*.yaml"; "sur/*.yaml"] "out.txt"
        Cases.start = (Raise UnicodeEncodeError, st')
      ∧ disk st' !! "out.txt" = Some (flush (written st'))
      ∧ method_count st' = length (written st') + 1
      ∧ length (written st') = 3
      ∧ method_count st' = 4.
Proof.
  split; [reflexivity|].
  exists (yaml_to_all_tests Cases.platform ["one/*.yaml"; "sur/*.yaml"]
            "out.txt" Cases.start).2.
  assert (yaml_to_all_tests Cases.platform ["one/*.yaml"; "sur/*.yaml"]
            "out.txt" Cases.start
          = (Raise UnicodeEncodeError,
             (yaml_to_all_tests Cases.platform ["one/*.yaml"; "sur/*.yaml"]
                "out.txt" Cases.start).2)) as Hrun
      by (vm_compute; reflexivity).
  destruct (output_is_whole_lines Cases.platform
              ["one/*.yaml"; "sur/*.yaml"] "out.txt"
              Cases.start _ _ eq_refl Hrun) as (Hout & _ & Hcount & _).
  split; [exact Hrun|]. split; [exact Hout|]. split; [exact Hcount|].
  split; vm_compute; reflexivity.
Defined.

(** X9.  A run logs the patterns it received and the number of resolved
    paths, duplicates counted, and nothing else until it ends; the
    totals are logged last, and only by a run that completes. *)
Theorem console_of_a_run (P : platform) glob_paths out_file st :
  console (yaml_to_all_tests P glob_paths out_file st).2
  = console st
    ++ [LogReceived glob_paths; LogFound (length (resolve P glob_paths))]
    ++ match (yaml_to_all_tests P glob_paths out_file st).1 with
       | Ok _ =>
           [LogWrote
              (method_count (yaml_to_all_tests P glob_paths out_file st).2)
              (class_count (yaml_to_all_tests P glob_paths out_file st).2)
              out_file]
       | Raise _ => []
       end.
Proof.
  destruct (can_write P out_file) eqn:Hw.
  - rewrite yaml_to_all_tests_unfold by done.
    destruct (write_files_state P (resolve P glob_paths)
                (opened P glob_paths out_file st)) as (c & ls & Hst & _).
    destruct (for_each _ _ _) as [[[]|e] st2]; simpl in Hst; subst st2;
      simpl; by rewrite <- ?app_assoc.
  - by rewrite (unwritable_output_state P glob_paths out_file st Hw).
Qed.

(** X10.  Running [yaml_to_all_tests] again with the same arguments, when
    every pattern still matches the same paths in the same order, ends
    the same way and leaves every file, the output file included, and
    both counters as the first run left them. *)
Theorem rerun_changes_nothing (P : platform) glob' glob_paths out_file st
    r st1 :
  (∀ p, p ∈ glob_paths → glob' p = glob P p) →
  yaml_to_all_tests P glob_paths out_file st = (r, st1) →
  ∃ st2,
    yaml_to_all_tests (later P glob') glob_paths out_file st1 = (r, st2)
    ∧ disk st2 = disk st1
    ∧ written st2 = written st1
    ∧ class_count st2 = class_count st1
    ∧ method_count st2 = method_count st1.
Proof.
  intros Hsame Hrun. pose proof (resolve_ext P glob' glob_paths Hsame) as Hres.
  destruct (can_write P out_file) eqn:Hw.
  - rewrite yaml_to_all_tests_unfold in Hrun by done.
    rewrite yaml_to_all_tests_unfold by done. rewrite Hres.
    change (write_file (later P glob')) with (write_file P).
    pose proof (write_files_disk P (resolve P glob_paths)
                  (opened P glob_paths out_file st)) as Hd.
    assert (<[out_file:=""]> (disk st1) = <[out_file:=""]> (disk st))
      as Hdisk.
    { destruct (for_each _ _ _) as [[[]|e] s2]; simpl in Hd;
        injection Hrun as _ <-; simpl;
        by rewrite Hd, !insert_insert_eq. }
    assert (opened (later P glob') glob_paths out_file st1
            = set_console
                (console st1
                 ++ [LogReceived glob_paths;
                     LogFound (length (resolve P glob_paths))])
                (opened P glob_paths out_file st)) as ->.
    { unfold opened, set_console. simpl. by rewrite Hdisk, Hres. }
    rewrite (blind_write_files P).
    destruct (for_each _ _ _) as [[[]|e] s2]; simpl in *;
      injection Hrun as <- <-; by eexists.
  - rewrite (unwritable_output_state P glob_paths out_file st Hw) in Hrun.
    injection Hrun as <- <-.
    rewrite (unwritable_output_state (later P glob')) by done.
    by eexists.
Qed.

Lemma rerun_changes_nothing_witness :
  (∀ p, p ∈ Demo.two_patterns → glob Demo.platform p = glob Demo.platform p)
  ∧ ∃ st1 st2,
      yaml_to_all_tests Demo.platform Demo.two_patterns "old.txt" Demo.start
      = (Ok tt, st1)
      ∧ yaml_to_all_tests (later Demo.platform (glob Demo.platform))
          Demo.two_patterns "old.txt" st1 = (Ok tt, st2)
      ∧ disk st2 = disk st1
      ∧ disk st1 !! "old.txt"
        = Some ("Foo#a" +:+ LF +:+ "Foo#b" +:+ LF +:+ "Foo#a" +:+ LF
                +:+ "Foo#a" +:+ LF).
Proof.
  split; [done|].
  exists (yaml_to_all_tests Demo.platform Demo.two_patterns "old.txt"
            Demo.start).2.
  assert (yaml_to_all_tests Demo.platform Demo.two_patterns "old.txt"
            Demo.start
          = (Ok tt,
             (yaml_to_all_tests Demo.platform Demo.two_patterns "old.txt"
                Demo.start).2)) as Hrun by (vm_compute; reflexivity).
  destruct (rerun_changes_nothing Demo.platform (glob Demo.platform)
              Demo.two_patterns "old.txt" Demo.start _ _
              (fun p _ => eq_refl) Hrun) as (st2 & Hagain & Hdisk & _).
  exists st2. split; [exact Hrun|]. split; [exact Hagain|].
  split; [exact Hdisk|]. vm_compute; reflexivity.
Defined.

(** X12.  A method whose line the encoding of the output file cannot
    encode stops the run at line 49 with [UnicodeEncodeError], when the
    loop has come through the files, the keys and the methods before
    it: their lines stay written and reach the output file, the class
    counter has counted the key, and the method counter has counted the
    method that was not written. *)
Theorem unencodable_method_stops_the_run (P : platform) glob_paths out_file
    st pre f post text ipre key value ipost mpre m mpost mid :
  can_write P out_file = true →
  resolve P glob_paths = pre ++ f :: post →
  for_each pre (write_file P) (opened P glob_paths out_file st)
  = (Ok tt, mid) →
  run_disk out_file st !! f = Some text →
  safe_load P text = Some (PDict (ipre ++ (key, value) :: ipost)) →
  items_ok P ipre = true →
  py_iter value = inr (mpre ++ m :: mpost) →
  forallb (encodable P) (line P key <$> mpre) = true →
  encodable P (line P key m) = false →
  ∃ st',
    yaml_to_all_tests P glob_paths out_file st
    = (Raise UnicodeEncodeError, st')
    ∧ exit_status (@Raise unit UnicodeEncodeError) = 1%Z
    ∧ written st'
      = written mid ++ (ipre ≫= item_lines P) ++ (line P key <$> mpre)
    ∧ class_count st' = class_count mid + length ipre + 1
    ∧ method_count st' = length (written st') + 1
    ∧ disk st' !! out_file = Some (flush (written st')).
Proof.
  intros Hw Hsplit Hpre Hread Hload Hipre Hit Hmpre Hm.
  destruct (write_files_state P pre (opened P glob_paths out_file st))
    as (c & ls & Hmid & _).
  rewrite Hpre in Hmid. simpl in Hmid.
  assert (disk mid = <[out_file:=""]> (disk st)) as Hd by by rewrite Hmid.
  rewrite yaml_to_all_tests_unfold, Hsplit, for_each_app by done.
  unfold bind at 1. rewrite Hpre. cbn [for_each]. unfold bind.
  rewrite write_file_unfold. unfold file_items. rewrite Hd.
  unfold run_disk in Hread. rewrite Hread, Hload. simpl.
  rewrite (write_classes_stop P ipre (key, value) ipost mpre m mpost)
    by done.
  eexists. split; [done|]. split; [done|]. simpl.
  rewrite lookup_insert_eq. repeat split; [lia|].
  rewrite Hmid. simpl. rewrite !length_app, length_fmap. lia.
Qed.

Lemma unencodable_method_stops_the_run_witness :
  can_write Cases.platform "out.txt" = true
  ∧ resolve Cases.platform ["one/*.yaml"; "sur/*.yaml"; "two/*.yaml"]
    = ["one/x.yaml"] ++ "sur/s.yaml" :: ["two/x.yaml"; "two/y.yaml"]
  ∧ safe_load Cases.platform Cases.surrogate_name
    = Some (PDict ([] ++ (PStr "Foo",
                          PList [PStr "a"; PStr Cases.surrogate; PStr "b"])
                      :: []))
  ∧ encodable Cases.platform
      (line Cases.platform (PStr "Foo") (PStr Cases.surrogate)) = false
  ∧ ∃ st',
      yaml_to_all_tests Cases.platform
        ["one/*.yaml"; "sur/*.yaml"; "two/*.yaml"] "out.txt" Cases.start
      = (Raise UnicodeEncodeError, st')
      ∧ written st' = ["Foo#a" +:+ LF; "Foo#b" +:+ LF; "Foo#a" +:+ LF]
      ∧ class_count st' = 2
      ∧ method_count st' = 4.
Proof.
  split; [reflexivity|]. split; [reflexivity|]. split; [reflexivity|].
  split; [reflexivity|].
  destruct (unencodable_method_stops_the_run Cases.platform
              ["one/*.yaml"; "sur/*.yaml"; "two/*.yaml"] "out.txt"
              Cases.start ["one/x.yaml"] "sur/s.yaml"
              ["two/x.yaml"; "two/y.yaml"] Cases.surrogate_name
              [] (PStr "Foo")
              (PList [PStr "a"; PStr Cases.surrogate; PStr "b"]) []
              [PStr "a"] (PStr Cases.surrogate) [PStr "b"]
              (for_each ["one/x.yaml"] (write_file Cases.platform)
                 (opened Cases.platform
                    ["one/*.yaml"; "sur/*.yaml"; "two/*.yaml"] "out.txt"
                    Cases.start)).2)
    as (st' & Hrun & _ & Hwritten & Hcls & Hmeth & _);
    [reflexivity | reflexivity | vm_compute; reflexivity | reflexivity
    | reflexivity | reflexivity | reflexivity | reflexivity | reflexivity |].
  exists st'. split; [exact Hrun|].
  split; [rewrite Hwritten; vm_compute; reflexivity|].
  split; [rewrite Hcls; vm_compute; reflexivity|].
  rewrite Hmeth, Hwritten; vm_compute; reflexivity.
Defined.
